(** * saml2aws: the IDP account configuration (pkg/cfg/cfg.go)

    A shallow embedding of package [cfg]: the [IDPAccount] record, its
    validation and rendering, and the [ConfigManager] that saves and loads
    named accounts in one ini file.

    Conventions.
    - A Go [string] is a [string] (a sequence of bytes), a Go [bool] a
      [bool], a Go [int] an integer [Z] that lies in the 64-bit range.
    - A Go [error] is a value of [error]; a function returning [error]
      returns [option error], [None] standing for [nil].
    - [net/url.Parse] and [prompter.ValidateAndSetPrompter] are not part of
      the package; they are the two fields of the class [Externals] and
      every definition is parametric in them.
    - The ini library (gopkg.in/ini.v1) is embedded in [Module ini] at the
      level of its data structure: a file is an ordered list of named
      sections, a section an ordered list of keys with their raw values.
    - The text of the file is the library's business: the parser and the
      writer of ini are the fields of the class [IniText], and every
      definition that touches the file is parametric in them. Nothing is
      assumed of them: what the writer makes of a file need not parse
      back to it, and one text may parse to other values under other
      options. *)

From Stdlib Require Import String Ascii List ZArith NArith Lia Bool.
Import ListNotations.
Open Scope string_scope.

(** ** Errors (github.com/pkg/errors) *)

Inductive error : Type :=
| errors_New (msg : string)                   (* errors.New(msg) in package cfg *)
| errors_Wrap (cause : error) (msg : string)  (* errors.Wrap(cause, msg) *)
| external (msg : string).                    (* made by ini, os or prompter *)

(** [Error()] of pkg/errors: a wrapped error prints as "msg: cause". *)
Fixpoint Error (e : error) : string :=
  match e with
  | errors_New m => m
  | errors_Wrap c m => m ++ ": " ++ Error c
  | external m => m
  end.

(** [errors.Cause]: the innermost error of a chain of wraps. *)
Fixpoint Cause (e : error) : error :=
  match e with
  | errors_Wrap c _ => Cause c
  | _ => e
  end.

(** The errors met when unwrapping [e], outermost first. *)
Fixpoint chain (e : error) : list error :=
  match e with
  | errors_Wrap c _ => e :: chain c
  | _ => [e]
  end.

Definition ErrIdpAccountNotFound : error :=
  errors_New "IDP account not found, run configure to set it up".

(** ** Constants *)

Definition DefaultConfigPath := "~/.saml2aws".
Definition DefaultAmazonWebservicesURN := "urn:amazon:webservices".
Definition DefaultSessionDuration : Z := 3600.
Definition DefaultProfile := "saml".

(** ** What the package calls but does not define *)

Class Externals : Type := {
  (** [net/url.Parse]: the error of parsing a URL, if any. *)
  url_Parse : string -> option error;
  (** [prompter.ValidateAndSetPrompter]: the error for a prompter name the
      registry does not know, if any. *)
  ValidateAndSetPrompter : string -> option error
}.

(** ** The account record *)

Record IDPAccount : Type := {
  Name : string;
  AppID : string;
  URL : string;
  Username : string;
  Provider : string;
  BrowserType : string;
  BrowserExecutablePath : string;
  BrowserAutoFill : bool;
  MFA : string;
  MFAIPAddress : string;
  SkipVerify : bool;
  Timeout : Z;
  AmazonWebservicesURN : string;
  SessionDuration : Z;
  Profile : string;
  ResourceID : string;
  Subdomain : string;
  RoleARN : string;
  PolicyFile : string;
  PolicyARNs : string;
  Region : string;
  HttpAttemptsCount : string;
  HttpRetryDelay : string;
  CredentialsFile : string;
  SAMLCache : bool;
  SAMLCacheFile : string;
  TargetURL : string;
  DisableRememberDevice : bool;
  DisableSessions : bool;
  DownloadBrowser : bool;
  BrowserDriverDir : string;
  Headless : bool;
  Prompter : string;
  KCAuthErrorMessage : string;
  KCAuthErrorElement : string;
  KCBroker : string
}.

(** The zero value of the struct. *)
Definition zeroIDPAccount : IDPAccount :=
  {| Name := ""; AppID := ""; URL := ""; Username := ""; Provider := "";
     BrowserType := ""; BrowserExecutablePath := ""; BrowserAutoFill := false;
     MFA := ""; MFAIPAddress := ""; SkipVerify := false; Timeout := 0;
     AmazonWebservicesURN := ""; SessionDuration := 0; Profile := "";
     ResourceID := ""; Subdomain := ""; RoleARN := ""; PolicyFile := "";
     PolicyARNs := ""; Region := ""; HttpAttemptsCount := "";
     HttpRetryDelay := ""; CredentialsFile := ""; SAMLCache := false;
     SAMLCacheFile := ""; TargetURL := ""; DisableRememberDevice := false;
     DisableSessions := false; DownloadBrowser := false;
     BrowserDriverDir := ""; Headless := false; Prompter := "";
     KCAuthErrorMessage := ""; KCAuthErrorElement := ""; KCBroker := "" |}.

(** Field assignment, one function per field the development assigns. *)
Definition set_Name (v : string) (a : IDPAccount) : IDPAccount :=
  {| Name := v; AppID := AppID a; URL := URL a; Username := Username a;
     Provider := Provider a; BrowserType := BrowserType a;
     BrowserExecutablePath := BrowserExecutablePath a;
     BrowserAutoFill := BrowserAutoFill a; MFA := MFA a;
     MFAIPAddress := MFAIPAddress a; SkipVerify := SkipVerify a;
     Timeout := Timeout a; AmazonWebservicesURN := AmazonWebservicesURN a;
     SessionDuration := SessionDuration a; Profile := Profile a;
     ResourceID := ResourceID a; Subdomain := Subdomain a;
     RoleARN := RoleARN a; PolicyFile := PolicyFile a;
     PolicyARNs := PolicyARNs a; Region := Region a;
     HttpAttemptsCount := HttpAttemptsCount a;
     HttpRetryDelay := HttpRetryDelay a;
     CredentialsFile := CredentialsFile a; SAMLCache := SAMLCache a;
     SAMLCacheFile := SAMLCacheFile a; TargetURL := TargetURL a;
     DisableRememberDevice := DisableRememberDevice a;
     DisableSessions := DisableSessions a;
     DownloadBrowser := DownloadBrowser a;
     BrowserDriverDir := BrowserDriverDir a; Headless := Headless a;
     Prompter := Prompter a; KCAuthErrorMessage := KCAuthErrorMessage a;
     KCAuthErrorElement := KCAuthErrorElement a; KCBroker := KCBroker a |}.

Definition set_AppID (v : string) (a : IDPAccount) : IDPAccount :=
  {| Name := Name a; AppID := v; URL := URL a; Username := Username a;
     Provider := Provider a; BrowserType := BrowserType a;
     BrowserExecutablePath := BrowserExecutablePath a;
     BrowserAutoFill := BrowserAutoFill a; MFA := MFA a;
     MFAIPAddress := MFAIPAddress a; SkipVerify := SkipVerify a;
     Timeout := Timeout a; AmazonWebservicesURN := AmazonWebservicesURN a;
     SessionDuration := SessionDuration a; Profile := Profile a;
     ResourceID := ResourceID a; Subdomain := Subdomain a;
     RoleARN := RoleARN a; PolicyFile := PolicyFile a;
     PolicyARNs := PolicyARNs a; Region := Region a;
     HttpAttemptsCount := HttpAttemptsCount a;
     HttpRetryDelay := HttpRetryDelay a;
     CredentialsFile := CredentialsFile a; SAMLCache := SAMLCache a;
     SAMLCacheFile := SAMLCacheFile a; TargetURL := TargetURL a;
     DisableRememberDevice := DisableRememberDevice a;
     DisableSessions := DisableSessions a;
     DownloadBrowser := DownloadBrowser a;
     BrowserDriverDir := BrowserDriverDir a; Headless := Headless a;
     Prompter := Prompter a; KCAuthErrorMessage := KCAuthErrorMessage a;
     KCAuthErrorElement := KCAuthErrorElement a; KCBroker := KCBroker a |}.

Definition set_URL (v : string) (a : IDPAccount) : IDPAccount :=
  {| Name := Name a; AppID := AppID a; URL := v; Username := Username a;
     Provider := Provider a; BrowserType := BrowserType a;
     BrowserExecutablePath := BrowserExecutablePath a;
     BrowserAutoFill := BrowserAutoFill a; MFA := MFA a;
     MFAIPAddress := MFAIPAddress a; SkipVerify := SkipVerify a;
     Timeout := Timeout a; AmazonWebservicesURN := AmazonWebservicesURN a;
     SessionDuration := SessionDuration a; Profile := Profile a;
     ResourceID := ResourceID a; Subdomain := Subdomain a;
     RoleARN := RoleARN a; PolicyFile := PolicyFile a;
     PolicyARNs := PolicyARNs a; Region := Region a;
     HttpAttemptsCount := HttpAttemptsCount a;
     HttpRetryDelay := HttpRetryDelay a;
     CredentialsFile := CredentialsFile a; SAMLCache := SAMLCache a;
     SAMLCacheFile := SAMLCacheFile a; TargetURL := TargetURL a;
     DisableRememberDevice := DisableRememberDevice a;
     DisableSessions := DisableSessions a;
     DownloadBrowser := DownloadBrowser a;
     BrowserDriverDir := BrowserDriverDir a; Headless := Headless a;
     Prompter := Prompter a; KCAuthErrorMessage := KCAuthErrorMessage a;
     KCAuthErrorElement := KCAuthErrorElement a; KCBroker := KCBroker a |}.

Definition set_Provider (v : string) (a : IDPAccount) : IDPAccount :=
  {| Name := Name a; AppID := AppID a; URL := URL a; Username := Username a;
     Provider := v; BrowserType := BrowserType a;
     BrowserExecutablePath := BrowserExecutablePath a;
     BrowserAutoFill := BrowserAutoFill a; MFA := MFA a;
     MFAIPAddress := MFAIPAddress a; SkipVerify := SkipVerify a;
     Timeout := Timeout a; AmazonWebservicesURN := AmazonWebservicesURN a;
     SessionDuration := SessionDuration a; Profile := Profile a;
     ResourceID := ResourceID a; Subdomain := Subdomain a;
     RoleARN := RoleARN a; PolicyFile := PolicyFile a;
     PolicyARNs := PolicyARNs a; Region := Region a;
     HttpAttemptsCount := HttpAttemptsCount a;
     HttpRetryDelay := HttpRetryDelay a;
     CredentialsFile := CredentialsFile a; SAMLCache := SAMLCache a;
     SAMLCacheFile := SAMLCacheFile a; TargetURL := TargetURL a;
     DisableRememberDevice := DisableRememberDevice a;
     DisableSessions := DisableSessions a;
     DownloadBrowser := DownloadBrowser a;
     BrowserDriverDir := BrowserDriverDir a; Headless := Headless a;
     Prompter := Prompter a; KCAuthErrorMessage := KCAuthErrorMessage a;
     KCAuthErrorElement := KCAuthErrorElement a; KCBroker := KCBroker a |}.

Definition set_MFA (v : string) (a : IDPAccount) : IDPAccount :=
  {| Name := Name a; AppID := AppID a; URL := URL a; Username := Username a;
     Provider := Provider a; BrowserType := BrowserType a;
     BrowserExecutablePath := BrowserExecutablePath a;
     BrowserAutoFill := BrowserAutoFill a; MFA := v;
     MFAIPAddress := MFAIPAddress a; SkipVerify := SkipVerify a;
     Timeout := Timeout a; AmazonWebservicesURN := AmazonWebservicesURN a;
     SessionDuration := SessionDuration a; Profile := Profile a;
     ResourceID := ResourceID a; Subdomain := Subdomain a;
     RoleARN := RoleARN a; PolicyFile := PolicyFile a;
     PolicyARNs := PolicyARNs a; Region := Region a;
     HttpAttemptsCount := HttpAttemptsCount a;
     HttpRetryDelay := HttpRetryDelay a;
     CredentialsFile := CredentialsFile a; SAMLCache := SAMLCache a;
     SAMLCacheFile := SAMLCacheFile a; TargetURL := TargetURL a;
     DisableRememberDevice := DisableRememberDevice a;
     DisableSessions := DisableSessions a;
     DownloadBrowser := DownloadBrowser a;
     BrowserDriverDir := BrowserDriverDir a; Headless := Headless a;
     Prompter := Prompter a; KCAuthErrorMessage := KCAuthErrorMessage a;
     KCAuthErrorElement := KCAuthErrorElement a; KCBroker := KCBroker a |}.

Definition set_Subdomain (v : string) (a : IDPAccount) : IDPAccount :=
  {| Name := Name a; AppID := AppID a; URL := URL a; Username := Username a;
     Provider := Provider a; BrowserType := BrowserType a;
     BrowserExecutablePath := BrowserExecutablePath a;
     BrowserAutoFill := BrowserAutoFill a; MFA := MFA a;
     MFAIPAddress := MFAIPAddress a; SkipVerify := SkipVerify a;
     Timeout := Timeout a; AmazonWebservicesURN := AmazonWebservicesURN a;
     SessionDuration := SessionDuration a; Profile := Profile a;
     ResourceID := ResourceID a; Subdomain := v;
     RoleARN := RoleARN a; PolicyFile := PolicyFile a;
     PolicyARNs := PolicyARNs a; Region := Region a;
     HttpAttemptsCount := HttpAttemptsCount a;
     HttpRetryDelay := HttpRetryDelay a;
     CredentialsFile := CredentialsFile a; SAMLCache := SAMLCache a;
     SAMLCacheFile := SAMLCacheFile a; TargetURL := TargetURL a;
     DisableRememberDevice := DisableRememberDevice a;
     DisableSessions := DisableSessions a;
     DownloadBrowser := DownloadBrowser a;
     BrowserDriverDir := BrowserDriverDir a; Headless := Headless a;
     Prompter := Prompter a; KCAuthErrorMessage := KCAuthErrorMessage a;
     KCAuthErrorElement := KCAuthErrorElement a; KCBroker := KCBroker a |}.

Definition set_AmazonWebservicesURN (v : string) (a : IDPAccount) : IDPAccount :=
  {| Name := Name a; AppID := AppID a; URL := URL a; Username := Username a;
     Provider := Provider a; BrowserType := BrowserType a;
     BrowserExecutablePath := BrowserExecutablePath a;
     BrowserAutoFill := BrowserAutoFill a; MFA := MFA a;
     MFAIPAddress := MFAIPAddress a; SkipVerify := SkipVerify a;
     Timeout := Timeout a; AmazonWebservicesURN := v;
     SessionDuration := SessionDuration a; Profile := Profile a;
     ResourceID := ResourceID a; Subdomain := Subdomain a;
     RoleARN := RoleARN a; PolicyFile := PolicyFile a;
     PolicyARNs := PolicyARNs a; Region := Region a;
     HttpAttemptsCount := HttpAttemptsCount a;
     HttpRetryDelay := HttpRetryDelay a;
     CredentialsFile := CredentialsFile a; SAMLCache := SAMLCache a;
     SAMLCacheFile := SAMLCacheFile a; TargetURL := TargetURL a;
     DisableRememberDevice := DisableRememberDevice a;
     DisableSessions := DisableSessions a;
     DownloadBrowser := DownloadBrowser a;
     BrowserDriverDir := BrowserDriverDir a; Headless := Headless a;
     Prompter := Prompter a; KCAuthErrorMessage := KCAuthErrorMessage a;
     KCAuthErrorElement := KCAuthErrorElement a; KCBroker := KCBroker a |}.

Definition set_DisableRememberDevice (v : bool) (a : IDPAccount) : IDPAccount :=
  {| Name := Name a; AppID := AppID a; URL := URL a; Username := Username a;
     Provider := Provider a; BrowserType := BrowserType a;
     BrowserExecutablePath := BrowserExecutablePath a;
     BrowserAutoFill := BrowserAutoFill a; MFA := MFA a;
     MFAIPAddress := MFAIPAddress a; SkipVerify := SkipVerify a;
     Timeout := Timeout a; AmazonWebservicesURN := AmazonWebservicesURN a;
     SessionDuration := SessionDuration a; Profile := Profile a;
     ResourceID := ResourceID a; Subdomain := Subdomain a;
     RoleARN := RoleARN a; PolicyFile := PolicyFile a;
     PolicyARNs := PolicyARNs a; Region := Region a;
     HttpAttemptsCount := HttpAttemptsCount a;
     HttpRetryDelay := HttpRetryDelay a;
     CredentialsFile := CredentialsFile a; SAMLCache := SAMLCache a;
     SAMLCacheFile := SAMLCacheFile a; TargetURL := TargetURL a;
     DisableRememberDevice := v;
     DisableSessions := DisableSessions a;
     DownloadBrowser := DownloadBrowser a;
     BrowserDriverDir := BrowserDriverDir a; Headless := Headless a;
     Prompter := Prompter a; KCAuthErrorMessage := KCAuthErrorMessage a;
     KCAuthErrorElement := KCAuthErrorElement a; KCBroker := KCBroker a |}.

(** [NewIDPAccount]: the zero value with three defaults filled in. *)
Definition NewIDPAccount : IDPAccount :=
  {| Name := ""; AppID := ""; URL := ""; Username := ""; Provider := "";
     BrowserType := ""; BrowserExecutablePath := ""; BrowserAutoFill := false;
     MFA := ""; MFAIPAddress := ""; SkipVerify := false; Timeout := 0;
     AmazonWebservicesURN := DefaultAmazonWebservicesURN;
     SessionDuration := DefaultSessionDuration;
     Profile := DefaultProfile;
     ResourceID := ""; Subdomain := ""; RoleARN := ""; PolicyFile := "";
     PolicyARNs := ""; Region := ""; HttpAttemptsCount := "";
     HttpRetryDelay := ""; CredentialsFile := ""; SAMLCache := false;
     SAMLCacheFile := ""; TargetURL := ""; DisableRememberDevice := false;
     DisableSessions := false; DownloadBrowser := false;
     BrowserDriverDir := ""; Headless := false; Prompter := "";
     KCAuthErrorMessage := ""; KCAuthErrorElement := ""; KCBroker := "" |}.

(** ** Formatting ([fmt]) *)

Definition LF : string := String (ascii_of_nat 10) "".

(** [%v] of a bool. *)
Definition FormatBool (b : bool) : string := if b then "true" else "false".

Definition digit (n : N) : ascii := ascii_of_N (48 + n).

(** The decimal digits of [n], most significant first, put before [acc]. *)
Fixpoint FormatUint_aux (fuel : nat) (n : N) (acc : string) : string :=
  match fuel with
  | O => acc
  | S fuel' =>
      let acc' := String (digit (n mod 10)) acc in
      if (n / 10 =? 0)%N then acc' else FormatUint_aux fuel' (n / 10) acc'
  end.

Definition FormatUint (n : N) : string := FormatUint_aux (S (N.size_nat n)) n "".

(** [%d] of an int, and [fmt.Sprint] of it. *)
Definition FormatInt (z : Z) : string :=
  if (z <? 0)%Z then "-" ++ FormatUint (Z.abs_N z) else FormatUint (Z.abs_N z).

(** ** Rendering: [IDPAccount.String] *)

Definition String_appID (ia : IDPAccount) : string :=
  if Provider ia =? "OneLogin" then
    LF ++ "  AppID: " ++ AppID ia ++ LF ++ "  Subdomain: " ++ Subdomain ia
  else if Provider ia =? "AzureAD" then
    LF ++ "  AppID: " ++ AppID ia
  else "".

Definition String_policyID (ia : IDPAccount) : string :=
  if Provider ia =? "F5APM" then LF ++ "  ResourceID: " ++ ResourceID ia
  else "".

Definition String_oktaCfg (ia : IDPAccount) : string :=
  if Provider ia =? "Okta" then
    LF ++ "  DisableSessions: " ++ FormatBool (DisableSessions ia)
       ++ LF ++ "  DisableRememberDevice: " ++ FormatBool (DisableSessions ia)
  else "".

(** The part of the format that every provider prints. *)
Definition String_common (ia : IDPAccount) : string :=
  LF ++ "  URL: " ++ URL ia
  ++ LF ++ "  Username: " ++ Username ia
  ++ LF ++ "  Provider: " ++ Provider ia
  ++ LF ++ "  MFA: " ++ MFA ia
  ++ LF ++ "  SkipVerify: " ++ FormatBool (SkipVerify ia)
  ++ LF ++ "  AmazonWebservicesURN: " ++ AmazonWebservicesURN ia
  ++ LF ++ "  SessionDuration: " ++ FormatInt (SessionDuration ia)
  ++ LF ++ "  Profile: " ++ Profile ia
  ++ LF ++ "  RoleARN: " ++ RoleARN ia
  ++ LF ++ "  Region: " ++ Region ia
  ++ LF ++ "}".

Definition IDPAccount_String (ia : IDPAccount) : string :=
  "account {" ++ String_appID ia ++ String_policyID ia ++ String_oktaCfg ia
  ++ String_common ia.

(** ** Validation: [IDPAccount.Validate] *)

(** The [switch ia.Provider] that opens [Validate]: the error it returns,
    or [None] when control falls out of the switch. *)
Definition Validate_switch (ia : IDPAccount) : option error :=
  if Provider ia =? "OneLogin" then
    if AppID ia =? "" then Some (errors_New "app ID empty in idp account")
    else if Subdomain ia =? "" then
      Some (errors_New "subdomain empty in idp account")
    else None
  else if Provider ia =? "F5APM" then
    if ResourceID ia =? "" then
      Some (errors_New "Resource ID empty in idp account")
    else None
  else if Provider ia =? "AzureAD" then
    if AppID ia =? "" then Some (errors_New "app ID empty in idp account")
    else None
  else None.

Definition Validate `{Externals} (ia : IDPAccount) : option error :=
  match Validate_switch ia with
  | Some e => Some e
  | None =>
      if URL ia =? "" then Some (errors_New "URL empty in idp account")
      else
        match url_Parse (URL ia) with
        | Some _ => Some (errors_New "URL parse failed")
        | None =>
            if Provider ia =? "" then
              Some (errors_New "Provider empty in idp account")
            else if negb (Provider ia =? "Browser") && (MFA ia =? "") then
              Some (errors_New "MFA empty in idp account")
            else if Profile ia =? "" then
              Some (errors_New "Profile empty in idp account")
            else
              match ValidateAndSetPrompter (Prompter ia) with
              | Some err => Some err
              | None => None
              end
        end
  end.

(** ** Results of fallible calls *)

Inductive result (A : Type) : Type :=
| Ok (a : A)
| Err (e : error).
Arguments Ok {A} a.
Arguments Err {A} e.

(** ** Number parsing ([strconv]) *)

Module strconv.

(** [lower(c)]: [c | ('x' - 'X')]. *)
Definition lower (c : ascii) : N := N.lor (N_of_ascii c) 32.

(** The value of a digit or letter, as [ParseUint] reads it. *)
Definition digit_value (c : ascii) : option N :=
  let n := N_of_ascii c in
  if ((48 <=? n) && (n <=? 57))%N then Some (n - 48)%N
  else if ((97 <=? lower c) && (lower c <=? 122))%N then Some (lower c - 97 + 10)%N
  else None.

(** The loop of [ParseUint] over the digits, with underscores skipped
    (base 0 allows them); [None] is the syntax error. The value is not
    bounded here: the range is checked by the caller. *)
Fixpoint digits_value (base : N) (s : string) (n : N) : option N :=
  match s with
  | EmptyString => Some n
  | String c r =>
      if Ascii.eqb c "_" then digits_value base r n
      else
        match digit_value c with
        | Some d => if (base <=? d)%N then None
                    else digits_value base r (n * base + d)
        | None => None
        end
  end.

Definition is_prefix_letter (c : ascii) : bool :=
  ((lower c =? 98) || (lower c =? 111) || (lower c =? 120))%N.

(** The last character class seen by [underscoreOK]. *)
Inductive saw_t := saw_start | saw_digit | saw_underscore | saw_other.

Fixpoint underscoreOK_loop (hex : bool) (saw : saw_t) (s : string) : bool :=
  match s with
  | EmptyString => match saw with saw_underscore => false | _ => true end
  | String c r =>
      let n := N_of_ascii c in
      if (((48 <=? n) && (n <=? 57))
          || (hex && (97 <=? lower c) && (lower c <=? 102)))%N
      then underscoreOK_loop hex saw_digit r
      else if Ascii.eqb c "_" then
        match saw with
        | saw_digit => underscoreOK_loop hex saw_underscore r
        | _ => false
        end
      else
        match saw with
        | saw_underscore => false
        | _ => underscoreOK_loop hex saw_other r
        end
  end.

(** [underscoreOK]: underscores only between digits or after the base
    prefix. *)
Definition underscoreOK (s : string) : bool :=
  let s := match s with
           | String c r =>
               if Ascii.eqb c "-" || Ascii.eqb c "+" then r else s
           | _ => s
           end in
  match s with
  | String "0" (String c r) =>
      if is_prefix_letter c
      then underscoreOK_loop (lower c =? 120)%N saw_digit r
      else underscoreOK_loop false saw_start s
  | _ => underscoreOK_loop false saw_start s
  end.

Fixpoint has_underscore (s : string) : bool :=
  match s with
  | EmptyString => false
  | String c r => Ascii.eqb c "_" || has_underscore r
  end.

(** [ParseUint(s, 0, 64)] without its upper bound: the base comes from the
    prefix of [s]. *)
Definition ParseUint0 (s : string) : option N :=
  match s with
  | EmptyString => None
  | String c r =>
      let '(base, body) :=
        if Ascii.eqb c "0" then
          match r with
          | String p (String q t) =>
              if (lower p =? 98)%N then (2%N, String q t)
              else if (lower p =? 111)%N then (8%N, String q t)
              else if (lower p =? 120)%N then (16%N, String q t)
              else (8%N, r)
          | _ => (8%N, r)
          end
        else (10%N, s) in
      match digits_value base body 0 with
      | Some n =>
          if has_underscore body && negb (underscoreOK s) then None
          else Some n
      | None => None
      end
  end.

(** [ParseInt(s, 0, 64)]: [None] for a syntax error or a value outside
    the 64-bit range. *)
Definition ParseInt (s : string) : option Z :=
  match s with
  | EmptyString => None
  | String c r =>
      let '(neg, body) :=
        if Ascii.eqb c "+" then (false, r)
        else if Ascii.eqb c "-" then (true, r)
        else (false, s) in
      match ParseUint0 body with
      | Some un =>
          let cutoff := (2 ^ 63)%N in
          if negb neg && (cutoff <=? un)%N then None
          else if neg && (cutoff <? un)%N then None
          else Some (if neg then (- Z.of_N un)%Z else Z.of_N un)
      | None => None
      end
  end.

End strconv.

(** ** The ini library (gopkg.in/ini.v1), as package [cfg] uses it

    Options are the ones of [LoadSources] in this package: [Loose], no
    insensitive names, no shadows, unique sections, "." as the delimiter
    of child sections. A section is known by its name, a key by the name
    of its section and its own. *)

Module ini.

Definition DefaultSection : string := "DEFAULT".

(** The keys of a section, in the order of [keyList], with raw values. *)
Definition Keys : Type := list (string * string).

(** The sections of a file, in the order of [sectionList]. *)
Definition File : Type := list (string * Keys).

(** The value of a struct field handed to [ReflectFrom]. *)
Inductive value : Type :=
| VString (s : string)
| VBool (b : bool)
| VInt (z : Z).

Fixpoint lookup (k : string) (ks : Keys) : option string :=
  match ks with
  | [] => None
  | (k', v) :: r => if k' =? k then Some v else lookup k r
  end.

Fixpoint find_section (f : File) (name : string) : option Keys :=
  match f with
  | [] => None
  | (n, ks) :: r => if n =? name then Some ks else find_section r name
  end.

(** The name [SectionsByName] looks for: the empty name is the default
    section. *)
Definition canonical (name : string) : string :=
  if name =? "" then DefaultSection else name.

(** [File.GetSection]: the section and the name it carries. *)
Definition GetSection (f : File) (name : string) : option (string * Keys) :=
  match find_section f (canonical name) with
  | Some ks => Some (canonical name, ks)
  | None => None
  end.

(** [File.NewSection]: the existing section of that name, or a new empty
    one at the end. *)
Definition NewSection (f : File) (name : string) : result File :=
  if name =? "" then Err (external "empty section name")
  else
    match find_section f name with
    | Some _ => Ok f
    | None => Ok (f ++ [(name, [])])%list
    end.

(** [File.Section]: the section, created when it does not exist; returns
    the file and the name of the section. *)
Definition File_Section (f : File) (name : string) : File * string :=
  match GetSection f name with
  | Some (n, _) => (f, n)
  | None =>
      let name := canonical name in
      match NewSection f name with
      | Ok f' => (f', name)
      | Err _ => (f, name)
      end
  end.

(** The file [ini.Empty] and a missing file in loose mode give. *)
Definition Empty : File := [(DefaultSection, [])].

(** Parsing starts with [NewSection(DefaultSection)], so a loaded file
    always has the default section. *)
Definition with_default (f : File) : File :=
  match find_section f DefaultSection with
  | Some _ => f
  | None => (DefaultSection, []) :: f
  end.

(** The prefixes of [s] that end just before a ".", shortest first. *)
Fixpoint dot_prefixes (s : string) : list string :=
  match s with
  | EmptyString => []
  | String c r =>
      let ps := map (String c) (dot_prefixes r) in
      if Ascii.eqb c "." then EmptyString :: ps else ps
  end.

(** The names the loop of [Section.GetKey] tries for a section called
    [sname], nearest first: [sname[:i]] for the last "." of [sname], then
    for the one before, and so on. *)
Definition parents (sname : string) : list string := rev (dot_prefixes sname).

(** The first section among [names] that exists and has the key, with the
    raw value of the key. *)
Fixpoint first_with_key (f : File) (names : list string) (k : string)
  : option (string * string) :=
  match names with
  | [] => None
  | n :: r =>
      match GetSection f n with
      | Some (cn, ks) =>
          match lookup k ks with
          | Some v => Some (cn, v)
          | None => first_with_key f r k
          end
      | None => first_with_key f r k
      end
  end.

(** [Section.GetKey] on the section [sname]: the key of that name in the
    section or else in the nearest parent section that has it. Returns the
    section that owns the key and the raw value. *)
Definition GetKey (f : File) (sname k : string) : option (string * string) :=
  first_with_key f (sname :: parents sname) k.

Fixpoint set_value (k v : string) (ks : Keys) : Keys :=
  match ks with
  | [] => []
  | (k', v') :: r => if k' =? k then (k', v) :: r else (k', v') :: set_value k v r
  end.

Fixpoint update_section (f : File) (name : string) (g : Keys -> Keys) : File :=
  match f with
  | [] => []
  | (n, ks) :: r =>
      if n =? name then (n, g ks) :: r else (n, ks) :: update_section r name g
  end.

(** [Key.SetValue] on the key [k] of section [owner]. *)
Definition SetValue (f : File) (owner k v : string) : File :=
  update_section f owner (set_value k v).

(** [Section.NewKey] with a name that is not empty: the value of an
    existing key is overwritten, a new key goes to the end. *)
Definition NewKey (f : File) (sname k v : string) : File :=
  update_section f sname
    (fun ks => match lookup k ks with
               | Some _ => set_value k v ks
               | None => (ks ++ [(k, v)])%list
               end).

(** *** Values: [Key.String] and the references "%(name)s" *)

Fixpoint contains_percent (s : string) : bool :=
  match s with
  | EmptyString => false
  | String c r => Ascii.eqb c "%" || contains_percent r
  end.

(** The characters before the first ")" and what follows it. *)
Fixpoint until_paren (s : string) : option (string * string) :=
  match s with
  | EmptyString => None
  | String c r =>
      if Ascii.eqb c ")" then Some (EmptyString, r)
      else match until_paren r with
           | Some (n, rest) => Some (String c n, rest)
           | None => None
           end
  end.

(** A match of [varPattern], "%\(([^)]+)\)s", at the start of [s]: the
    name between the parentheses. *)
Definition var_at (s : string) : option string :=
  match s with
  | String "%" (String "(" r) =>
      match until_paren r with
      | Some (n, String "s" _) => if n =? "" then None else Some n
      | _ => None
      end
  | _ => None
  end.

(** [varPattern.FindString]: the leftmost match, as the name it holds. *)
Fixpoint find_var (s : string) : option string :=
  match var_at s with
  | Some n => Some n
  | None => match s with
            | EmptyString => None
            | String _ r => find_var r
            end
  end.

(** [strings.Replace(s, old, new, -1)] for a non-empty [old]; [skip]
    counts the characters of a replaced occurrence still to pass. *)
Fixpoint replace_from (old new s : string) (skip : nat) : string :=
  match s with
  | EmptyString => EmptyString
  | String c r =>
      match skip with
      | S k => replace_from old new r k
      | O =>
          if prefix old s then new ++ replace_from old new r (String.length old - 1)
          else String c (replace_from old new r 0)
      end
  end.

Definition Replace (s old new : string) : string := replace_from old new s 0.

Definition depthValues : nat := 99.

(** The loop of [Key.transformValue] for the key [k] of section [owner]. *)
Fixpoint transform_loop (n : nat) (f : File) (owner k val : string) : string :=
  match n with
  | O => val
  | S n' =>
      match find_var val with
      | None => val
      | Some noption =>
          let in_default :=
            match GetKey f DefaultSection noption with
            | Some (_, v) => Some v
            | None => None
            end in
          let nk :=
            match GetKey f owner noption with
            | Some (o, v) =>
                if (o =? owner) && (noption =? k) then in_default else Some v
            | None => in_default
            end in
          match nk with
          | None => val
          | Some v =>
              transform_loop n' f owner k
                (Replace val ("%(" ++ noption ++ ")s") v)
          end
      end
  end.

Definition transformValue (f : File) (owner k val : string) : string :=
  if negb (contains_percent val) then val
  else transform_loop depthValues f owner k val.

(** [Key.String] for the key that [GetKey] found for section [sname]. *)
Definition Key_String (f : File) (sname k : string) : option string :=
  match GetKey f sname k with
  | Some (owner, raw) => Some (transformValue f owner k raw)
  | None => None
  end.

(** [parseBool] of the library. *)
Definition parseBool (s : string) : option bool :=
  if existsb (String.eqb s)
       ["1"; "t"; "T"; "true"; "TRUE"; "True"; "YES"; "yes"; "Yes"; "y";
        "ON"; "on"; "On"]
  then Some true
  else if existsb (String.eqb s)
       ["0"; "f"; "F"; "false"; "FALSE"; "False"; "NO"; "no"; "No"; "n";
        "OFF"; "off"; "Off"]
  then Some false
  else None.

(** *** MapTo, field by field ([setWithProperType], not strict)

    A key that is missing, a string value that is empty and a value that
    does not parse leave the field as it is. *)

Definition mapString (f : File) (sname k : string) (cur : string) : string :=
  match Key_String f sname k with
  | Some v => if v =? "" then cur else v
  | None => cur
  end.

Definition mapBool (f : File) (sname k : string) (cur : bool) : bool :=
  match Key_String f sname k with
  | Some v => match parseBool v with Some b => b | None => cur end
  | None => cur
  end.

Definition mapInt (f : File) (sname k : string) (cur : Z) : Z :=
  match Key_String f sname k with
  | Some v => match strconv.ParseInt v with Some z => z | None => cur end
  | None => cur
  end.

(** *** ReflectFrom, field by field ([reflectFrom]) *)

Definition isEmptyValue (v : value) : bool :=
  match v with
  | VString s => s =? ""
  | VBool b => negb b
  | VInt z => (z =? 0)%Z
  end.

(** [reflectWithProperType]: the text stored for a value. *)
Definition render (v : value) : string :=
  match v with
  | VString s => s
  | VBool b => FormatBool b
  | VInt z => FormatInt z
  end.

(** One turn of the loop of [reflectFrom] on section [sname], for a field
    with tag name [k], its [omitempty] option and its value. *)
Definition reflect_field (sname : string) (f : File)
    (fld : string * bool * value) : File :=
  let '(k, omitEmpty, v) := fld in
  if omitEmpty && isEmptyValue v then f
  else
    match GetKey f sname k with
    | Some (owner, _) => SetValue f owner k (render v)
    | None => SetValue (NewKey f sname k "") sname k (render v)
    end.

Definition ReflectFrom (f : File) (sname : string)
    (fields : list (string * bool * value)) : File :=
  fold_left (reflect_field sname) fields f.

End ini.

(** ** The struct tags of [IDPAccount]

    The fields in the order of the declaration, each with the key name of
    its [ini] tag, its [omitempty] option and its value: what the loop of
    [ReflectFrom] walks through. *)

Definition struct_fields (a : IDPAccount) : list (string * bool * ini.value) :=
  [ ("name", false, ini.VString (Name a));
    ("app_id", false, ini.VString (AppID a));
    ("url", false, ini.VString (URL a));
    ("username", false, ini.VString (Username a));
    ("provider", false, ini.VString (Provider a));
    ("browser_type", true, ini.VString (BrowserType a));
    ("browser_executable_path", true, ini.VString (BrowserExecutablePath a));
    ("browser_autofill", true, ini.VBool (BrowserAutoFill a));
    ("mfa", false, ini.VString (MFA a));
    ("mfa_ip_address", false, ini.VString (MFAIPAddress a));
    ("skip_verify", false, ini.VBool (SkipVerify a));
    ("timeout", false, ini.VInt (Timeout a));
    ("aws_urn", false, ini.VString (AmazonWebservicesURN a));
    ("aws_session_duration", false, ini.VInt (SessionDuration a));
    ("aws_profile", false, ini.VString (Profile a));
    ("resource_id", false, ini.VString (ResourceID a));
    ("subdomain", false, ini.VString (Subdomain a));
    ("role_arn", false, ini.VString (RoleARN a));
    ("policy_file", false, ini.VString (PolicyFile a));
    ("policy_arn_list", false, ini.VString (PolicyARNs a));
    ("region", false, ini.VString (Region a));
    ("http_attempts_count", false, ini.VString (HttpAttemptsCount a));
    ("http_retry_delay", false, ini.VString (HttpRetryDelay a));
    ("credentials_file", false, ini.VString (CredentialsFile a));
    ("saml_cache", false, ini.VBool (SAMLCache a));
    ("saml_cache_file", false, ini.VString (SAMLCacheFile a));
    ("target_url", false, ini.VString (TargetURL a));
    ("disable_remember_device", false, ini.VBool (DisableRememberDevice a));
    ("disable_sessions", false, ini.VBool (DisableSessions a));
    ("download_browser_driver", false, ini.VBool (DownloadBrowser a));
    ("browser_driver_dir", true, ini.VString (BrowserDriverDir a));
    ("headless", false, ini.VBool (Headless a));
    ("prompter", false, ini.VString (Prompter a));
    ("kc_auth_error_message", true, ini.VString (KCAuthErrorMessage a));
    ("kc_auth_error_element", true, ini.VString (KCAuthErrorElement a));
    ("kc_broker", false, ini.VString (KCBroker a)) ].

(** [sec.MapTo(account)] for the section [sname] of [f]: every field is
    set from the key of its tag. Mapping reads the file and each field has
    a key of its own, so the loop over the fields is written out as one
    record. *)
Definition MapTo (f : ini.File) (sname : string) (a : IDPAccount) : IDPAccount :=
  {| Name := ini.mapString f sname "name" (Name a);
     AppID := ini.mapString f sname "app_id" (AppID a);
     URL := ini.mapString f sname "url" (URL a);
     Username := ini.mapString f sname "username" (Username a);
     Provider := ini.mapString f sname "provider" (Provider a);
     BrowserType := ini.mapString f sname "browser_type" (BrowserType a);
     BrowserExecutablePath :=
       ini.mapString f sname "browser_executable_path" (BrowserExecutablePath a);
     BrowserAutoFill := ini.mapBool f sname "browser_autofill" (BrowserAutoFill a);
     MFA := ini.mapString f sname "mfa" (MFA a);
     MFAIPAddress := ini.mapString f sname "mfa_ip_address" (MFAIPAddress a);
     SkipVerify := ini.mapBool f sname "skip_verify" (SkipVerify a);
     Timeout := ini.mapInt f sname "timeout" (Timeout a);
     AmazonWebservicesURN :=
       ini.mapString f sname "aws_urn" (AmazonWebservicesURN a);
     SessionDuration :=
       ini.mapInt f sname "aws_session_duration" (SessionDuration a);
     Profile := ini.mapString f sname "aws_profile" (Profile a);
     ResourceID := ini.mapString f sname "resource_id" (ResourceID a);
     Subdomain := ini.mapString f sname "subdomain" (Subdomain a);
     RoleARN := ini.mapString f sname "role_arn" (RoleARN a);
     PolicyFile := ini.mapString f sname "policy_file" (PolicyFile a);
     PolicyARNs := ini.mapString f sname "policy_arn_list" (PolicyARNs a);
     Region := ini.mapString f sname "region" (Region a);
     HttpAttemptsCount :=
       ini.mapString f sname "http_attempts_count" (HttpAttemptsCount a);
     HttpRetryDelay := ini.mapString f sname "http_retry_delay" (HttpRetryDelay a);
     CredentialsFile :=
       ini.mapString f sname "credentials_file" (CredentialsFile a);
     SAMLCache := ini.mapBool f sname "saml_cache" (SAMLCache a);
     SAMLCacheFile := ini.mapString f sname "saml_cache_file" (SAMLCacheFile a);
     TargetURL := ini.mapString f sname "target_url" (TargetURL a);
     DisableRememberDevice :=
       ini.mapBool f sname "disable_remember_device" (DisableRememberDevice a);
     DisableSessions := ini.mapBool f sname "disable_sessions" (DisableSessions a);
     DownloadBrowser :=
       ini.mapBool f sname "download_browser_driver" (DownloadBrowser a);
     BrowserDriverDir :=
       ini.mapString f sname "browser_driver_dir" (BrowserDriverDir a);
     Headless := ini.mapBool f sname "headless" (Headless a);
     Prompter := ini.mapString f sname "prompter" (Prompter a);
     KCAuthErrorMessage :=
       ini.mapString f sname "kc_auth_error_message" (KCAuthErrorMessage a);
     KCAuthErrorElement :=
       ini.mapString f sname "kc_auth_error_element" (KCAuthErrorElement a);
     KCBroker := ini.mapString f sname "kc_broker" (KCBroker a) |}.

(** ** The backing file

    ini keeps the file as text. It writes a value as it is and reads
    text in its own way (a backslash at the end of a line, quotes around
    a value, a comment sign), and the options of [LoadSources] change
    what a text parses to. The text, the parser and the writer are taken
    as they come: they are the fields of [IniText]. *)

(** [ini.LoadOptions], with the two fields this package sets. *)
Record LoadOptions : Type := {
  Loose : bool;
  SpaceBeforeInlineComment : bool
}.

(** What the parser makes of a text: the sections and keys it finds, or
    the message of its error. *)
Inductive parsed : Type :=
| Sections (f : ini.File)
| ParseError (msg : string).

Class IniText : Type := {
  (** The content of a file. *)
  text : Type;
  (** The parser behind [ini.LoadSources], under the given options. *)
  parse : LoadOptions -> text -> parsed;
  (** The writer behind [File.SaveTo]. *)
  write : ini.File -> text
}.

(** The file system as the [ConfigManager] sees it: the content of the
    file at [configPath], if there is one, and the message of the error
    a write to it meets, if any. *)
Record disk {T : IniText} : Type := {
  file : option text;
  write_failure : option string
}.

(** [ini.LoadSources(opts, cm.configPath)]. With [Loose], which both
    calls of this package set, a missing file is an empty one. *)
Definition LoadSources {T : IniText} (opts : LoadOptions) (d : disk)
  : result ini.File :=
  match file d with
  | None =>
      if Loose opts then Ok ini.Empty
      else Err (external "open: no such file or directory")
  | Some t =>
      match parse opts t with
      | Sections f => Ok (ini.with_default f)
      | ParseError msg => Err (external msg)
      end
  end.

(** [cfg.SaveTo(cm.configPath)]: the file is replaced by the text the
    writer makes of [f]. *)
Definition SaveTo {T : IniText} (d : disk) (f : ini.File) : disk * option error :=
  match write_failure d with
  | Some msg => (d, Some (external msg))
  | None => ({| file := Some (write f); write_failure := None |}, None)
  end.

(** ** The configuration manager *)

(** The options of the load in [SaveIDPAccount]. *)
Definition save_options : LoadOptions :=
  {| Loose := true; SpaceBeforeInlineComment := false |}.

(** The options of the load in [LoadIDPAccount]. *)
Definition load_options : LoadOptions :=
  {| Loose := true; SpaceBeforeInlineComment := true |}.

Definition SaveIDPAccount `{Externals} {T : IniText} (d : disk)
    (idpAccountName : string) (account : IDPAccount) : disk * option error :=
  match Validate account with
  | Some err => (d, Some (errors_Wrap err "Account validation failed"))
  | None =>
      match LoadSources save_options d with
      | Err err => (d, Some (errors_Wrap err "Unable to load configuration file"))
      | Ok cfg =>
          match ini.NewSection cfg idpAccountName with
          | Err err =>
              (d, Some (errors_Wrap err
                          "Unable to build a new section in configuration file"))
          | Ok cfg =>
              let cfg := ini.ReflectFrom cfg idpAccountName (struct_fields account) in
              match SaveTo d cfg with
              | (d', Some err) =>
                  (d', Some (errors_Wrap err "Failed to save configuration file"))
              | (d', None) => (d', None)
              end
          end
      end
  end.

Definition readAccount (idpAccountName : string) (cfg : ini.File)
  : result IDPAccount :=
  let account := NewIDPAccount in
  let '(cfg, sec) := ini.File_Section cfg idpAccountName in
  Ok (MapTo cfg sec account).

Definition LoadIDPAccount {T : IniText} (d : disk) (idpAccountName : string)
  : result IDPAccount :=
  match LoadSources load_options d with
  | Err err => Err (errors_Wrap err "Unable to load configuration file")
  | Ok cfg =>
      match readAccount idpAccountName cfg with
      | Err err => Err (errors_Wrap err "Unable to read idp account")
      | Ok account => Ok (set_Name idpAccountName account)
      end
  end.

(** ** The rules of validation as the specification lists them

    Nine rules, each a check of its own that fails or lets the record
    pass; [first_failure] runs them in order and stops at the first that
    fails. [Validate] is compared with it below. *)

Definition rule : Type := IDPAccount -> option error.

Definition requires_app_id (provider : string) : bool :=
  (provider =? "OneLogin") || (provider =? "AzureAD").

Definition spec_rule_app_id : rule := fun ia =>
  if requires_app_id (Provider ia) && (AppID ia =? "")
  then Some (errors_New "app ID empty in idp account") else None.

Definition spec_rule_subdomain : rule := fun ia =>
  if (Provider ia =? "OneLogin") && (Subdomain ia =? "")
  then Some (errors_New "subdomain empty in idp account") else None.

Definition spec_rule_resource_id : rule := fun ia =>
  if (Provider ia =? "F5APM") && (ResourceID ia =? "")
  then Some (errors_New "Resource ID empty in idp account") else None.

Definition spec_rule_url_empty : rule := fun ia =>
  if URL ia =? "" then Some (errors_New "URL empty in idp account") else None.

Definition spec_rule_url_parses `{Externals} : rule := fun ia =>
  match url_Parse (URL ia) with
  | Some _ => Some (errors_New "URL parse failed")
  | None => None
  end.

Definition spec_rule_provider : rule := fun ia =>
  if Provider ia =? "" then Some (errors_New "Provider empty in idp account")
  else None.

Definition spec_rule_mfa : rule := fun ia =>
  if Provider ia =? "Browser" then None
  else if MFA ia =? "" then Some (errors_New "MFA empty in idp account")
  else None.

Definition spec_rule_profile : rule := fun ia =>
  if Profile ia =? "" then Some (errors_New "Profile empty in idp account")
  else None.

Definition spec_rule_prompter `{Externals} : rule := fun ia =>
  ValidateAndSetPrompter (Prompter ia).

Definition spec_rules `{Externals} : list rule :=
  [ spec_rule_app_id; spec_rule_subdomain; spec_rule_resource_id;
    spec_rule_url_empty; spec_rule_url_parses; spec_rule_provider;
    spec_rule_mfa; spec_rule_profile; spec_rule_prompter ].

Fixpoint first_failure (rules : list rule) (ia : IDPAccount) : option error :=
  match rules with
  | [] => None
  | r :: rest =>
      match r ia with
      | Some e => Some e
      | None => first_failure rest ia
      end
  end.

(** ** Predicates of the statements *)

(** The range of a Go [int] on a 64-bit platform. *)
Definition in_int64 (z : Z) : Prop := (- 2 ^ 63 <= z < 2 ^ 63)%Z.

Definition ints_in_range (a : IDPAccount) : Prop :=
  in_int64 (Timeout a) /\ in_int64 (SessionDuration a).

(** A value without a reference "%(name)s" to another key. *)
Definition no_reference (v : string) : bool :=
  match ini.find_var v with
  | None => true
  | Some _ => false
  end.

(** The string fields that [LoadIDPAccount] reads back: all but [Name]. *)
Definition loaded_strings (a : IDPAccount) : list string :=
  [ AppID a; URL a; Username a; Provider a; BrowserType a;
    BrowserExecutablePath a; MFA a; MFAIPAddress a; AmazonWebservicesURN a;
    Profile a; ResourceID a; Subdomain a; RoleARN a; PolicyFile a;
    PolicyARNs a; Region a; HttpAttemptsCount a; HttpRetryDelay a;
    CredentialsFile a; SAMLCacheFile a; TargetURL a; BrowserDriverDir a;
    Prompter a; KCAuthErrorMessage a; KCAuthErrorElement a; KCBroker a ].

Definition no_references (a : IDPAccount) : bool :=
  forallb no_reference (loaded_strings a).

(** What comes back when [a] was saved under [P] to an empty file: [a]
    with its name replaced by [P] and an empty federation URN by the
    default. *)
Definition after_round_trip (P : string) (a : IDPAccount) : IDPAccount :=
  set_Name P
    (if AmazonWebservicesURN a =? ""
     then set_AmazonWebservicesURN DefaultAmazonWebservicesURN a
     else a).

(** The sections a key lookup from section [sname] may reach: the section
    and its parents. *)
Definition lookup_sections (sname : string) : list string :=
  map ini.canonical (sname :: ini.parents sname).

(** No parent of section [P] that the file has holds a key. *)
Definition parents_hold_no_key (f : ini.File) (P : string) : bool :=
  forallb (fun q => match ini.GetSection f q with
                    | Some (_, _ :: _) => false
                    | _ => true
                    end) (ini.parents P).

(** What [SaveIDPAccount] hands to [SaveTo] when its load returned
    [cfg]: the sections of [cfg], with the section [P] made if it was
    not there, after [ReflectFrom] wrote the fields of [account]. *)
Definition saved_sections (cfg : ini.File) (P : string) (account : IDPAccount)
  : ini.File :=
  match ini.NewSection cfg P with
  | Ok cfg' => ini.ReflectFrom cfg' P (struct_fields account)
  | Err _ => cfg
  end.

(** The disk after [f] was written to it. *)
Definition written {T : IniText} (f : ini.File) : disk :=
  {| file := Some (write f); write_failure := None |}.

(** The text that the writer makes of [f] parses back to [f] under the
    options [opts]. *)
Definition reads_back {T : IniText} (opts : LoadOptions) (f : ini.File) : Prop :=
  parse opts (write f) = Sections f.

(** ** Sample values for the examples *)

Fixpoint has_control_byte (s : string) : bool :=
  match s with
  | EmptyString => false
  | String c r =>
      let n := N_of_ascii c in
      ((n <? 32) || (n =? 127))%N || has_control_byte r
  end.

(** A sample of the two outside functions: a URL with an ASCII control
    character does not parse, and the registry knows four prompters. *)
Definition sample_externals : Externals :=
  {| url_Parse := fun u =>
       if has_control_byte u
       then Some (external "net/url: invalid control character in URL")
       else None;
     ValidateAndSetPrompter := fun name =>
       if existsb (String.eqb name) [""; "default"; "survey"; "pinentry"]
       then None
       else Some (external ("prompter not supported: " ++ name)) |}.

Definition onelogin_account : IDPAccount :=
  set_MFA "push"
    (set_URL "https://example.onelogin.com"
       (set_Provider "OneLogin" NewIDPAccount)).

Definition okta_account : IDPAccount :=
  set_Name "work"
    (set_MFA "push"
       (set_URL "https://idp.example.com" (set_Provider "Okta" NewIDPAccount))).

Definition browser_account : IDPAccount :=
  set_URL "https://idp.example.com" (set_Provider "Browser" NewIDPAccount).

(** A sample of the text of a file, for files whose values are plain
    words: the text is the sections themselves, which parse back as they
    are under both sets of options, or a text that the parser rejects. *)
Inductive sample_text : Type :=
| Plain (f : ini.File)
| Garbled (msg : string).

Definition sample_ini : IniText :=
  {| text := sample_text;
     parse := fun _ t =>
       match t with
       | Plain f => Sections f
       | Garbled msg => ParseError msg
       end;
     write := Plain |}.

Definition empty_disk : disk (T := sample_ini) :=
  {| file := None; write_failure := None |}.

Definition unreadable_disk : disk (T := sample_ini) :=
  Build_disk sample_ini (Some (Garbled "unclosed section: [team")) None.

(** The sections after [okta_account] was saved under "team" to an empty
    file, and the keys of the section "team". *)
Definition team_file : ini.File :=
  Eval vm_compute in saved_sections ini.Empty "team" okta_account.

(** The disk that holds them. *)
Definition team_disk : disk (T := sample_ini) := written team_file.

Definition team_keys : ini.Keys :=
  Eval vm_compute in
    match ini.find_section team_file "team" with Some ks => ks | None => [] end.

Definition other_account : IDPAccount :=
  set_URL "https://other.example.com" okta_account.

Definition no_urn_account : IDPAccount :=
  set_AmazonWebservicesURN "" okta_account.

(** A file with a section "dev" that has the key of an [omitempty] field
    and a key that is no tag of the record. *)
Definition browser_file : ini.File :=
  [("DEFAULT", []); ("dev", [("browser_type", "chrome"); ("note", "by hand")])].

Definition browser_disk : disk (T := sample_ini) := written browser_file.

(** ** Notions used in the proofs *)

(** A string of decimal digits. *)
Fixpoint all_digits (s : string) : bool :=
  match s with
  | EmptyString => true
  | String c r =>
      let n := N_of_ascii c in ((48 <=? n) && (n <=? 57))%N && all_digits r
  end.

(** What one turn of [ReflectFrom] does to the keys of its own section
    when no other section can answer a lookup. *)
Definition reflect_keys (ks : ini.Keys) (fld : string * bool * ini.value) : ini.Keys :=
  let '(k, omitEmpty, v) := fld in
  if omitEmpty && ini.isEmptyValue v then ks
  else
    match ini.lookup k ks with
    | Some _ => ini.set_value k (ini.render v) ks
    | None => (ks ++ [(k, ini.render v)])%list
    end.

(** The field with the tag name [k], with its [omitempty] option and its
    value. *)
Fixpoint field_of (k : string) (fields : list (string * bool * ini.value))
  : option (bool * ini.value) :=
  match fields with
  | [] => None
  | (k', omitEmpty, v) :: r =>
      if k' =? k then Some (omitEmpty, v) else field_of k r
  end.

(** No name twice. *)
Fixpoint distinct (l : list string) : bool :=
  match l with
  | [] => true
  | x :: r => negb (existsb (String.eqb x) r) && distinct r
  end.

(** The tag names of the fields. *)
Definition tags (fields : list (string * bool * ini.value)) : list string :=
  map (fun fld => fst (fst fld)) fields.

(** Every section of [f] other than [P] has no key. *)
Definition keys_only_in (f : ini.File) (P : string) : Prop :=
  forall n ks, ini.find_section f n = Some ks -> n <> P -> ks = [].

(** No field with the tag name [k] is written: each one is omitted. *)
Definition not_written (k : string) (fields : list (string * bool * ini.value))
  : bool :=
  forallb (fun fld : string * bool * ini.value =>
             let '(k1, omitEmpty, v) := fld in
             negb (k1 =? k) || (omitEmpty && ini.isEmptyValue v)) fields.

(** Every field that is written is found by a lookup, with its text. *)
Definition settled (f : ini.File) (P : string)
    (fields : list (string * bool * ini.value)) : Prop :=
  forall k om v, In (k, om, v) fields -> om && ini.isEmptyValue v = false ->
                 exists o, ini.GetKey f P k = Some (o, ini.render v).

(** The fields of [l] are the ones saved from [a]: every field that is
    always written, with the default for an empty federation URN, and
    every [omitempty] field that was not empty. *)
Definition saved_fields_loaded (a l : IDPAccount) : Prop :=
  AppID l = AppID a /\
  URL l = URL a /\
  Username l = Username a /\
  Provider l = Provider a /\
  MFA l = MFA a /\
  MFAIPAddress l = MFAIPAddress a /\
  SkipVerify l = SkipVerify a /\
  Timeout l = Timeout a /\
  AmazonWebservicesURN l =
    (if AmazonWebservicesURN a =? "" then DefaultAmazonWebservicesURN
     else AmazonWebservicesURN a) /\
  SessionDuration l = SessionDuration a /\
  Profile l = Profile a /\
  ResourceID l = ResourceID a /\
  Subdomain l = Subdomain a /\
  RoleARN l = RoleARN a /\
  PolicyFile l = PolicyFile a /\
  PolicyARNs l = PolicyARNs a /\
  Region l = Region a /\
  HttpAttemptsCount l = HttpAttemptsCount a /\
  HttpRetryDelay l = HttpRetryDelay a /\
  CredentialsFile l = CredentialsFile a /\
  SAMLCache l = SAMLCache a /\
  SAMLCacheFile l = SAMLCacheFile a /\
  TargetURL l = TargetURL a /\
  DisableRememberDevice l = DisableRememberDevice a /\
  DisableSessions l = DisableSessions a /\
  DownloadBrowser l = DownloadBrowser a /\
  Headless l = Headless a /\
  Prompter l = Prompter a /\
  KCBroker l = KCBroker a /\
  (BrowserType a <> "" -> BrowserType l = BrowserType a) /\
  (BrowserExecutablePath a <> "" ->
   BrowserExecutablePath l = BrowserExecutablePath a) /\
  (BrowserAutoFill a = true -> BrowserAutoFill l = true) /\
  (BrowserDriverDir a <> "" -> BrowserDriverDir l = BrowserDriverDir a) /\
  (KCAuthErrorMessage a <> "" -> KCAuthErrorMessage l = KCAuthErrorMessage a) /\
  (KCAuthErrorElement a <> "" -> KCAuthErrorElement l = KCAuthErrorElement a).

(** The two files have the same sections under the names that a load of
    the profile [B] may read. *)
Definition agree_for (f f' : ini.File) (B : string) : Prop :=
  forall n, In n (ini.DefaultSection :: map ini.canonical (B :: ini.parents B)) ->
            ini.find_section f' n = ini.find_section f n.

(** The keys that [ReflectFrom] writes for the fields, in their order:
    the tag name and the text of every field that is not omitted. *)
Definition written_keys (fields : list (string * bool * ini.value)) : ini.Keys :=
  flat_map (fun fld : string * bool * ini.value =>
              let '(k, omitEmpty, v) := fld in
              if omitEmpty && ini.isEmptyValue v then []
              else [(k, ini.render v)]) fields.

(** * Validation *)

Lemma eqb_empty_false (s : string) : s <> "" -> (s =? "") = false.
Proof. intro Hs. now apply String.eqb_neq. Qed.

Lemma Validate_switch_spec (ia : IDPAccount) :
  Validate_switch ia =
  first_failure [spec_rule_app_id; spec_rule_subdomain; spec_rule_resource_id] ia.
Proof.
  unfold Validate_switch, first_failure, spec_rule_app_id, spec_rule_subdomain,
    spec_rule_resource_id, requires_app_id.
  destruct (Provider ia =? "OneLogin") eqn:E1.
  - apply String.eqb_eq in E1. rewrite E1. simpl.
    destruct (AppID ia =? ""); [reflexivity|].
    destruct (Subdomain ia =? ""); reflexivity.
  - destruct (Provider ia =? "F5APM") eqn:E2.
    + apply String.eqb_eq in E2. rewrite E2. simpl.
      destruct (ResourceID ia =? ""); reflexivity.
    + destruct (Provider ia =? "AzureAD") eqn:E3; simpl.
      * destruct (AppID ia =? ""); reflexivity.
      * reflexivity.
Qed.

Lemma first_failure_app (rs1 rs2 : list rule) (ia : IDPAccount) :
  first_failure (rs1 ++ rs2) ia =
  match first_failure rs1 ia with
  | Some e => Some e
  | None => first_failure rs2 ia
  end.
Proof.
  induction rs1 as [|r rs1 IH]; simpl; [reflexivity|].
  destruct (r ia); [reflexivity | exact IH].
Qed.

(** C4. [Validate] returns what the nine rules of the specification return
    when they are tried in their order and the first failure is kept; a
    record with every field empty fails on the empty URL. *)
Theorem Validate_first_failure `{Externals} :
  (forall ia, Validate ia = first_failure spec_rules ia) /\
  Validate zeroIDPAccount = Some (errors_New "URL empty in idp account").
Proof.
  split; [|reflexivity].
  intro ia. unfold Validate, spec_rules.
  change [spec_rule_app_id; spec_rule_subdomain; spec_rule_resource_id;
          spec_rule_url_empty; spec_rule_url_parses; spec_rule_provider;
          spec_rule_mfa; spec_rule_profile; spec_rule_prompter]
    with ([spec_rule_app_id; spec_rule_subdomain; spec_rule_resource_id] ++
          [spec_rule_url_empty; spec_rule_url_parses; spec_rule_provider;
           spec_rule_mfa; spec_rule_profile; spec_rule_prompter])%list.
  rewrite first_failure_app, <- Validate_switch_spec.
  destruct (Validate_switch ia); [reflexivity|].
  unfold first_failure, spec_rule_url_empty, spec_rule_url_parses,
    spec_rule_provider, spec_rule_mfa, spec_rule_profile, spec_rule_prompter.
  destruct (URL ia =? ""); [reflexivity|].
  destruct (url_Parse (URL ia)); [reflexivity|].
  destruct (Provider ia =? ""); [reflexivity|].
  destruct (Provider ia =? "Browser"); simpl.
  - destruct (Profile ia =? ""); [reflexivity|].
    destruct (ValidateAndSetPrompter (Prompter ia)); reflexivity.
  - destruct (MFA ia =? ""); [reflexivity|].
    destruct (Profile ia =? ""); [reflexivity|].
    destruct (ValidateAndSetPrompter (Prompter ia)); reflexivity.
Qed.

(** C2. When validation fails, [SaveIDPAccount] returns the validation
    error wrapped with "Account validation failed" and leaves the disk as
    it was. *)
Theorem SaveIDPAccount_validation_failure `{Externals} {T : IniText}
    (d : disk) (idpAccountName : string) (account : IDPAccount) (err : error) :
  Validate account = Some err ->
  SaveIDPAccount d idpAccountName account =
    (d, Some (errors_Wrap err "Account validation failed")).
Proof.
  intro Hv. unfold SaveIDPAccount. rewrite Hv. reflexivity.
Qed.

Lemma SaveIDPAccount_validation_failure_witness :
  SaveIDPAccount (H := sample_externals) team_disk "team" zeroIDPAccount =
    (team_disk,
     Some (errors_Wrap (errors_New "URL empty in idp account")
             "Account validation failed")).
Proof.
  apply (SaveIDPAccount_validation_failure (H := sample_externals)).
  reflexivity.
Defined.

(** C6. With the provider "Browser" and the other required fields set,
    validation succeeds whatever the MFA field holds, the empty string
    included; with any other provider an empty MFA field makes validation
    fail. *)
Theorem Validate_mfa_browser_only `{Externals} (ia : IDPAccount) :
  (Provider ia = "Browser" ->
   URL ia <> "" -> url_Parse (URL ia) = None -> Profile ia <> "" ->
   ValidateAndSetPrompter (Prompter ia) = None ->
   Validate ia = None) /\
  (Provider ia <> "Browser" -> MFA ia = "" ->
   exists err, Validate ia = Some err).
Proof.
  split.
  - intros Hp Hu Hparse Hprof Hprompt.
    unfold Validate, Validate_switch. rewrite Hp. simpl.
    rewrite (eqb_empty_false _ Hu), Hparse, (eqb_empty_false _ Hprof), Hprompt.
    reflexivity.
  - intros Hp Hm. apply String.eqb_neq in Hp.
    unfold Validate. rewrite Hp, Hm. simpl.
    destruct (Validate_switch ia); [eauto|].
    destruct (URL ia =? ""); [eauto|].
    destruct (url_Parse (URL ia)); [eauto|].
    destruct (Provider ia =? ""); eauto.
Qed.

Lemma Validate_mfa_browser_only_witness :
  MFA browser_account = "" /\
  Validate (H := sample_externals) browser_account = None /\
  exists err, Validate (H := sample_externals) (set_MFA "" okta_account) = Some err.
Proof.
  split; [reflexivity|]. split.
  - apply (Validate_mfa_browser_only (H := sample_externals) browser_account);
      solve [reflexivity | discriminate].
  - apply (Validate_mfa_browser_only (H := sample_externals)
             (set_MFA "" okta_account)); solve [reflexivity | discriminate].
Defined.

(** C8. The OneLogin scenario: the default record with provider
    "OneLogin", the URL "https://example.onelogin.com" and MFA "push"
    fails on the missing app ID; with an app ID it fails on the missing
    subdomain; with a subdomain as well it passes, given that the URL
    parses and the prompter registry accepts the empty prompter name of
    the default record. *)
Theorem Validate_onelogin_scenario `{Externals} (appID subdomain : string) :
  appID <> "" -> subdomain <> "" ->
  url_Parse "https://example.onelogin.com" = None ->
  ValidateAndSetPrompter "" = None ->
  Validate onelogin_account = Some (errors_New "app ID empty in idp account") /\
  Validate (set_AppID appID onelogin_account) =
    Some (errors_New "subdomain empty in idp account") /\
  Validate (set_Subdomain subdomain (set_AppID appID onelogin_account)) = None.
Proof.
  intros Ha Hs Hparse Hprompt. repeat split.
  - unfold Validate, Validate_switch. simpl.
    rewrite (eqb_empty_false _ Ha). reflexivity.
  - unfold Validate, Validate_switch. simpl.
    rewrite (eqb_empty_false _ Ha), (eqb_empty_false _ Hs), Hparse, Hprompt.
    reflexivity.
Qed.

Lemma Validate_onelogin_scenario_witness :
  Validate (H := sample_externals) onelogin_account =
    Some (errors_New "app ID empty in idp account") /\
  Validate (H := sample_externals) (set_AppID "123" onelogin_account) =
    Some (errors_New "subdomain empty in idp account") /\
  Validate (H := sample_externals)
    (set_Subdomain "acme" (set_AppID "123" onelogin_account)) = None.
Proof.
  apply (Validate_onelogin_scenario (H := sample_externals) "123" "acme");
    solve [reflexivity | discriminate].
Defined.

(** * Rendering *)

(** C10. For the provider "Okta" the summary prints the value of
    [DisableSessions] on the line "DisableSessions" and again on the line
    "DisableRememberDevice"; the value of [DisableRememberDevice] changes
    nothing in the summary. *)
Theorem String_okta_prints_DisableSessions_twice (ia : IDPAccount) :
  Provider ia = "Okta" ->
  IDPAccount_String ia =
    "account {"
    ++ LF ++ "  DisableSessions: " ++ FormatBool (DisableSessions ia)
    ++ LF ++ "  DisableRememberDevice: " ++ FormatBool (DisableSessions ia)
    ++ String_common ia
  /\ forall b : bool,
       IDPAccount_String (set_DisableRememberDevice b ia) = IDPAccount_String ia.
Proof.
  intro Hp. split; [|reflexivity].
  unfold IDPAccount_String, String_appID, String_policyID, String_oktaCfg.
  rewrite Hp. simpl. destruct (DisableSessions ia); reflexivity.
Qed.

Lemma String_okta_prints_DisableSessions_twice_witness :
  IDPAccount_String (set_DisableRememberDevice true okta_account) =
    "account {"
    ++ LF ++ "  DisableSessions: false"
    ++ LF ++ "  DisableRememberDevice: false"
    ++ String_common okta_account
  /\ forall b : bool,
       IDPAccount_String
         (set_DisableRememberDevice b (set_DisableRememberDevice true okta_account))
       = IDPAccount_String (set_DisableRememberDevice true okta_account).
Proof.
  apply (String_okta_prints_DisableSessions_twice
           (set_DisableRememberDevice true okta_account)).
  reflexivity.
Defined.

(** * The ini library: lookups after updates *)

Module ini_facts.
Import ini.

Lemma lookup_set_value_same (k v : string) (ks : Keys) :
  lookup k (set_value k v ks) =
  match lookup k ks with Some _ => Some v | None => None end.
Proof.
  induction ks as [|[k' v'] ks IH]; simpl; [reflexivity|].
  destruct (k' =? k) eqn:E; simpl; rewrite E; [reflexivity | exact IH].
Qed.

Lemma lookup_set_value_other (k k' v : string) (ks : Keys) :
  k <> k' -> lookup k (set_value k' v ks) = lookup k ks.
Proof.
  intro Hk. induction ks as [|[k1 v1] ks IH]; simpl; [reflexivity|].
  destruct (k1 =? k') eqn:E; simpl.
  - apply String.eqb_eq in E. subst k1.
    apply not_eq_sym in Hk. apply String.eqb_neq in Hk. rewrite Hk. reflexivity.
  - rewrite IH. reflexivity.
Qed.

Lemma lookup_app (k : string) (ks ks' : Keys) :
  lookup k (ks ++ ks')%list =
  match lookup k ks with Some v => Some v | None => lookup k ks' end.
Proof.
  induction ks as [|[k1 v1] ks IH]; simpl; [reflexivity|].
  destruct (k1 =? k); [reflexivity | exact IH].
Qed.

Lemma find_section_update (f : File) (n m : string) (g : Keys -> Keys) :
  find_section (update_section f n g) m =
  if n =? m then option_map g (find_section f m) else find_section f m.
Proof.
  induction f as [|[n1 ks1] f IH]; simpl.
  - destruct (n =? m); reflexivity.
  - destruct (n1 =? n) eqn:E1; simpl.
    + apply String.eqb_eq in E1. subst n1.
      destruct (n =? m); reflexivity.
    + destruct (n1 =? m) eqn:E2.
      * apply String.eqb_eq in E2. subst n1.
        rewrite String.eqb_sym, E1. reflexivity.
      * exact IH.
Qed.

Lemma find_section_update_other (f : File) (n m : string) (g : Keys -> Keys) :
  n <> m -> find_section (update_section f n g) m = find_section f m.
Proof.
  intro Hn. rewrite find_section_update.
  apply String.eqb_neq in Hn. rewrite Hn. reflexivity.
Qed.

Lemma find_section_update_same (f : File) (n : string) (g : Keys -> Keys) :
  find_section (update_section f n g) n = option_map g (find_section f n).
Proof. rewrite find_section_update, String.eqb_refl. reflexivity. Qed.

Lemma find_section_app (f : File) (n m : string) (ks : Keys) :
  find_section (f ++ [(n, ks)])%list m =
  match find_section f m with
  | Some x => Some x
  | None => if n =? m then Some ks else None
  end.
Proof.
  induction f as [|[n1 ks1] f IH]; simpl; [reflexivity|].
  destruct (n1 =? m); [reflexivity | exact IH].
Qed.

Lemma update_section_twice (f : File) (n : string) (g h : Keys -> Keys) :
  update_section (update_section f n g) n h =
  update_section f n (fun ks => h (g ks)).
Proof.
  induction f as [|[n1 ks1] f IH]; simpl; [reflexivity|].
  destruct (n1 =? n) eqn:E; simpl; rewrite E; [reflexivity|].
  rewrite IH. reflexivity.
Qed.

Lemma update_section_ext (f : File) (n : string) (g h : Keys -> Keys) (ks : Keys) :
  find_section f n = Some ks -> g ks = h ks ->
  update_section f n g = update_section f n h.
Proof.
  induction f as [|[n1 ks1] f IH]; simpl; [reflexivity|].
  destruct (n1 =? n); intros Hf Hg.
  - injection Hf as ->. rewrite Hg. reflexivity.
  - rewrite (IH Hf Hg). reflexivity.
Qed.

Lemma canonical_nonempty (name : string) : name <> "" -> canonical name = name.
Proof.
  intro Hn. unfold canonical. apply String.eqb_neq in Hn. rewrite Hn. reflexivity.
Qed.

Lemma canonical_not_empty (name : string) : canonical name <> "".
Proof.
  unfold canonical. destruct (name =? "") eqn:E.
  - discriminate.
  - now apply String.eqb_neq.
Qed.

Lemma canonical_idem (name : string) : canonical (canonical name) = canonical name.
Proof. apply canonical_nonempty, canonical_not_empty. Qed.

(** The owner that a lookup returns is one of the names it tried. *)
Lemma first_with_key_owner (f : File) (names : list string) (k o v : string) :
  first_with_key f names k = Some (o, v) ->
  In o (map canonical names) /\
  exists ks, find_section f o = Some ks /\ lookup k ks = Some v.
Proof.
  induction names as [|n names IH]; simpl; [discriminate|].
  unfold GetSection.
  destruct (find_section f (canonical n)) as [ks|] eqn:Ef.
  - destruct (lookup k ks) as [v'|] eqn:El.
    + intro H. injection H as <- <-. split; [now left|]. now exists ks.
    + intro H. destruct (IH H) as [Hin Hks]. split; [now right | exact Hks].
  - intro H. destruct (IH H) as [Hin Hks]. split; [now right | exact Hks].
Qed.

Lemma GetKey_owner (f : File) (P k o v : string) :
  GetKey f P k = Some (o, v) ->
  In o (map canonical (P :: parents P)) /\
  exists ks, find_section f o = Some ks /\ lookup k ks = Some v.
Proof. exact (first_with_key_owner f (P :: parents P) k o v). Qed.

(** Two files that agree, section by section, on the key [k] answer a
    lookup of [k] alike. *)
Lemma first_with_key_ext (f f' : File) (names : list string) (k : string) :
  (forall n, option_map (lookup k) (find_section f' n) =
             option_map (lookup k) (find_section f n)) ->
  first_with_key f' names k = first_with_key f names k.
Proof.
  intro Hagree. induction names as [|n names IH]; simpl; [reflexivity|].
  unfold GetSection. specialize (Hagree (canonical n)).
  destruct (find_section f' (canonical n)) as [ks'|];
    destruct (find_section f (canonical n)) as [ks|]; simpl in Hagree;
    try discriminate.
  - injection Hagree as Hl. rewrite Hl.
    destruct (lookup k ks); [reflexivity | exact IH].
  - exact IH.
Qed.

(** A lookup that finds nothing in any section it tries. *)
Lemma first_with_key_none (f : File) (names : list string) (k : string) :
  (forall n ks, In n names -> find_section f (canonical n) = Some ks ->
                lookup k ks = None) ->
  first_with_key f names k = None.
Proof.
  induction names as [|n names IH]; simpl; [reflexivity|].
  intro Hnone. unfold GetSection.
  destruct (find_section f (canonical n)) as [ks|] eqn:Ef.
  - rewrite (Hnone n ks (or_introl eq_refl) Ef).
    apply IH. intros m ks' Hm. apply Hnone. now right.
  - apply IH. intros m ks' Hm. apply Hnone. now right.
Qed.

(** Setting the value of the key a lookup found: the same lookup then
    finds the same key, with the new value. *)
Lemma first_with_key_SetValue (f : File) (names : list string) (k o old v : string) :
  first_with_key f names k = Some (o, old) ->
  first_with_key (SetValue f o k v) names k = Some (o, v).
Proof.
  unfold SetValue.
  induction names as [|n names IH]; simpl; [discriminate|].
  unfold GetSection. rewrite find_section_update.
  destruct (find_section f (canonical n)) as [ks|] eqn:Ef.
  - destruct (lookup k ks) as [v'|] eqn:El.
    + intro H. injection H as <- <-.
      rewrite String.eqb_refl. simpl.
      rewrite lookup_set_value_same, El. reflexivity.
    + intro H. destruct (o =? canonical n); simpl.
      * rewrite lookup_set_value_same, El. exact (IH H).
      * rewrite El. exact (IH H).
  - intro H. destruct (o =? canonical n); simpl; exact (IH H).
Qed.

(** *** One field of [ReflectFrom] *)

(** A field that is written leaves its value under its key, where a
    lookup from the section finds it. *)
Lemma GetKey_reflect_field_same (f : File) (P k : string) (v : value) (ks : Keys) :
  P <> "" -> find_section f P = Some ks ->
  exists o, GetKey (reflect_field P f (k, false, v)) P k = Some (o, render v).
Proof.
  intros HP Hf. unfold reflect_field. simpl.
  destruct (GetKey f P k) as [[o old]|] eqn:Eg.
  - exists o. unfold GetKey in *. exact (first_with_key_SetValue _ _ _ _ _ _ Eg).
  - exists P. unfold GetKey in *. simpl in *. unfold GetSection in *.
    rewrite (canonical_nonempty P HP) in *. rewrite Hf in Eg.
    destruct (lookup k ks) eqn:El; [discriminate|].
    unfold SetValue, NewKey. rewrite update_section_twice, find_section_update_same, Hf.
    simpl. rewrite El, lookup_set_value_same, lookup_app, El. simpl.
    rewrite String.eqb_refl. reflexivity.
Qed.

(** Section by section, a field changes nothing under the other keys. *)
Lemma reflect_field_other_key (f : File) (P k : string)
    (fld : string * bool * value) (n : string) :
  k <> fst (fst fld) ->
  option_map (lookup k) (find_section (reflect_field P f fld) n) =
  option_map (lookup k) (find_section f n).
Proof.
  destruct fld as [[k' om] v]. simpl. intro Hk. unfold reflect_field.
  destruct (om && isEmptyValue v); [reflexivity|].
  destruct (GetKey f P k') as [[o old]|].
  - unfold SetValue. rewrite find_section_update.
    destruct (o =? n); [|reflexivity].
    destruct (find_section f n); simpl; [|reflexivity].
    now rewrite lookup_set_value_other.
  - unfold SetValue, NewKey. rewrite update_section_twice, find_section_update.
    destruct (P =? n); [|reflexivity].
    destruct (find_section f n) as [ks|]; simpl; [|reflexivity].
    rewrite lookup_set_value_other by exact Hk.
    destruct (lookup k' ks).
    + now rewrite lookup_set_value_other.
    + rewrite lookup_app. simpl. apply String.eqb_neq in Hk.
      rewrite String.eqb_sym, Hk. destruct (lookup k ks); reflexivity.
Qed.

Lemma GetKey_reflect_field_other (f : File) (P k : string)
    (fld : string * bool * value) :
  k <> fst (fst fld) -> GetKey (reflect_field P f fld) P k = GetKey f P k.
Proof.
  intro Hk. unfold GetKey. apply first_with_key_ext.
  intro n. now apply reflect_field_other_key.
Qed.

Lemma ReflectFrom_cons (f : File) (P : string) (fld : string * bool * value)
    (fields : list (string * bool * value)) :
  ReflectFrom f P (fld :: fields) = ReflectFrom (reflect_field P f fld) P fields.
Proof. reflexivity. Qed.

Lemma GetKey_ReflectFrom_other (fields : list (string * bool * value))
    (f : File) (P k : string) :
  Forall (fun fld => k <> fst (fst fld)) fields ->
  GetKey (ReflectFrom f P fields) P k = GetKey f P k.
Proof.
  unfold ReflectFrom. intro Hall. revert f.
  induction Hall as [|fld fields Hk Hall IH]; intro f; simpl; [reflexivity|].
  rewrite IH. now apply GetKey_reflect_field_other.
Qed.

(** A field changes only sections that a lookup from [P] may reach. *)
Lemma reflect_field_frame (f : File) (P B : string) (fld : string * bool * value) :
  P <> "" -> ~ In B (map canonical (P :: parents P)) ->
  find_section (reflect_field P f fld) B = find_section f B.
Proof.
  intros HP HB. destruct fld as [[k om] v]. unfold reflect_field.
  destruct (om && isEmptyValue v); [reflexivity|].
  assert (HPB : P <> B).
  { intros ->. apply HB. simpl. left. now apply canonical_nonempty. }
  destruct (GetKey f P k) as [[o old]|] eqn:Eg.
  - unfold SetValue. apply find_section_update_other.
    intros ->. apply HB.
    unfold GetKey in Eg. now destruct (first_with_key_owner _ _ _ _ _ Eg).
  - unfold SetValue, NewKey. rewrite update_section_twice.
    now apply find_section_update_other.
Qed.

Lemma ReflectFrom_frame (fields : list (string * bool * value))
    (f : File) (P B : string) :
  P <> "" -> ~ In B (map canonical (P :: parents P)) ->
  find_section (ReflectFrom f P fields) B = find_section f B.
Proof.
  intros HP HB. unfold ReflectFrom. revert f.
  induction fields as [|fld fields IH]; intro f; simpl; [reflexivity|].
  rewrite IH. now apply reflect_field_frame.
Qed.

(** Sections are never removed. *)
Lemma reflect_field_keeps_sections (f : File) (P n : string)
    (fld : string * bool * value) :
  find_section f n <> None -> find_section (reflect_field P f fld) n <> None.
Proof.
  destruct fld as [[k om] v]. unfold reflect_field. intro Hn.
  destruct (om && isEmptyValue v); [exact Hn|].
  destruct (GetKey f P k) as [[o old]|].
  - unfold SetValue. rewrite find_section_update.
    destruct (o =? n); [|exact Hn].
    destruct (find_section f n); [discriminate | contradiction].
  - unfold SetValue, NewKey. rewrite update_section_twice, find_section_update.
    destruct (P =? n); [|exact Hn].
    destruct (find_section f n); [discriminate | contradiction].
Qed.

Lemma find_section_with_default (f : File) (n : string) (ks : Keys) :
  find_section f n = Some ks -> find_section (with_default f) n = Some ks.
Proof.
  intro Hf. unfold with_default.
  destruct (find_section f DefaultSection) eqn:Ed; [exact Hf|].
  cbn [find_section]. destruct (DefaultSection =? n) eqn:E; [|exact Hf].
  apply String.eqb_eq in E. subst n. congruence.
Qed.

Lemma NewSection_inv (f f' : File) (name : string) :
  NewSection f name = Ok f' ->
  name <> "" /\
  (exists ks, find_section f' name = Some ks) /\
  (forall n, n <> name -> find_section f' n = find_section f n).
Proof.
  unfold NewSection. destruct (name =? "") eqn:E; [discriminate|].
  apply String.eqb_neq in E.
  destruct (find_section f name) as [ks|] eqn:Ef; intro H; injection H as <-.
  - repeat split; [exact E | now exists ks].
  - repeat split; [exact E | |].
    + exists []. rewrite find_section_app, Ef, String.eqb_refl. reflexivity.
    + intros n Hn. rewrite find_section_app.
      apply not_eq_sym in Hn. apply String.eqb_neq in Hn. rewrite Hn.
      destruct (find_section f n); reflexivity.
Qed.

End ini_facts.
Import ini_facts.

(** * Numbers as text *)

Module strconv_facts.
Import strconv.

Lemma digit_cases (d : N) :
  (d < 10)%N ->
  d = 0%N \/ d = 1%N \/ d = 2%N \/ d = 3%N \/ d = 4%N \/
  d = 5%N \/ d = 6%N \/ d = 7%N \/ d = 8%N \/ d = 9%N.
Proof. lia. Qed.

Ltac by_digit d H :=
  destruct (digit_cases d H)
    as [->|[->|[->|[->|[->|[->|[->|[->|[->| ->]]]]]]]]]; vm_compute.

Lemma digit_value_digit (d : N) :
  (d < 10)%N -> digit_value (digit d) = Some d /\ Ascii.eqb (digit d) "_" = false.
Proof. intro H. by_digit d H; split; reflexivity. Qed.

Lemma N_of_ascii_digit (d : N) :
  (d < 10)%N -> N_of_ascii (digit d) = (48 + d)%N.
Proof. intro H. by_digit d H; reflexivity. Qed.

Lemma mod10_lt (n : N) : (n mod 10 < 10)%N.
Proof. apply N.mod_lt. discriminate. Qed.

(** Enough fuel: [FormatUint_aux] stops on the last digit. *)
Lemma div10_lt_pow2 (fuel : nat) (n : N) :
  (n < 2 ^ N.of_nat (S fuel))%N -> (n / 10 < 2 ^ N.of_nat fuel)%N.
Proof.
  intro H. rewrite Nat2N.inj_succ, N.pow_succ_r' in H.
  apply N.Div0.div_lt_upper_bound. lia.
Qed.

Lemma size_nat_gt (n : N) : (n < 2 ^ N.of_nat (N.size_nat n))%N.
Proof.
  destruct n as [|p]; [reflexivity|].
  cbn [N.size_nat]. induction p as [p IH|p IH|]; cbn [Pos.size_nat].
  - rewrite Nat2N.inj_succ, N.pow_succ_r'. lia.
  - rewrite Nat2N.inj_succ, N.pow_succ_r'. lia.
  - reflexivity.
Qed.

(** Reading back what [FormatUint_aux] wrote gives the number, then goes
    on with the rest. *)
Lemma digits_value_FormatUint_aux (fuel : nat) (n : N) (acc : string) :
  (n < 2 ^ N.of_nat fuel)%N ->
  digits_value 10 (FormatUint_aux fuel n acc) 0 = digits_value 10 acc n.
Proof.
  revert n acc. induction fuel as [|fuel IH]; intros n acc Hn.
  - cbn [FormatUint_aux]. change (2 ^ N.of_nat 0)%N with 1%N in Hn.
    replace n with 0%N by lia. reflexivity.
  - cbn [FormatUint_aux].
    pose proof (digit_value_digit (n mod 10) (mod10_lt n)) as [Hd Hu].
    assert (Hstep : digits_value 10 (String (digit (n mod 10)) acc) (n / 10)
                    = digits_value 10 acc n).
    { cbn [digits_value]. rewrite Hu, Hd.
      pose proof (mod10_lt n) as Hlt.
      destruct (10 <=? n mod 10)%N eqn:E; [apply N.leb_le in E; lia|].
      f_equal. rewrite (N.div_mod n 10) at 3 by discriminate. lia. }
    destruct (n / 10 =? 0)%N eqn:E.
    + apply N.eqb_eq in E. rewrite E in Hstep. exact Hstep.
    + rewrite IH by now apply div10_lt_pow2. exact Hstep.
Qed.

Lemma all_digits_FormatUint_aux (fuel : nat) (n : N) (acc : string) :
  all_digits acc = true -> all_digits (FormatUint_aux fuel n acc) = true.
Proof.
  revert n acc. induction fuel as [|fuel IH]; intros n acc Hacc; [exact Hacc|].
  cbn [FormatUint_aux].
  assert (Hstep : all_digits (String (digit (n mod 10)) acc) = true).
  { cbn [all_digits]. rewrite (N_of_ascii_digit _ (mod10_lt n)), Hacc.
    pose proof (mod10_lt n) as Hlt. revert Hlt.
    generalize (n mod 10)%N as m. intros m Hlt.
    rewrite andb_true_r. apply andb_true_intro. split; apply N.leb_le; lia. }
  destruct (n / 10 =? 0)%N; [exact Hstep | now apply IH].
Qed.

(** A number that is not zero starts with a digit from 1 to 9. *)
Lemma FormatUint_aux_head (fuel : nat) (n : N) (acc : string) :
  (n < 2 ^ N.of_nat fuel)%N -> n <> 0%N ->
  exists d rest, (1 <= d < 10)%N /\
    FormatUint_aux fuel n acc = String (digit d) rest.
Proof.
  revert n acc. induction fuel as [|fuel IH]; intros n acc Hn Hnz.
  - change (2 ^ N.of_nat 0)%N with 1%N in Hn. lia.
  - cbn [FormatUint_aux]. destruct (n / 10 =? 0)%N eqn:E.
    + apply N.eqb_eq in E. exists (n mod 10)%N, acc. split; [|reflexivity].
      pose proof (mod10_lt n). pose proof (N.div_mod n 10). lia.
    + apply N.eqb_neq in E. apply IH; [now apply div10_lt_pow2 | exact E].
Qed.

Lemma FormatUint_fuel (n : N) : (n < 2 ^ N.of_nat (S (N.size_nat n)))%N.
Proof.
  pose proof (size_nat_gt n). rewrite Nat2N.inj_succ, N.pow_succ_r'. lia.
Qed.

Lemma all_digits_no_underscore (s : string) :
  all_digits s = true -> has_underscore s = false.
Proof.
  induction s as [|c s IH]; [reflexivity|]. cbn [all_digits has_underscore].
  intro H. apply andb_prop in H. destruct H as [Hc Hs].
  rewrite (IH Hs), orb_false_r.
  destruct (Ascii.eqb c "_") eqn:E; [|reflexivity].
  apply Ascii.eqb_eq in E. subst c. discriminate Hc.
Qed.

Lemma all_digits_no_percent (s : string) :
  all_digits s = true -> ini.contains_percent s = false.
Proof.
  induction s as [|c s IH]; [reflexivity|]. cbn [all_digits ini.contains_percent].
  intro H. apply andb_prop in H. destruct H as [Hc Hs].
  rewrite (IH Hs), orb_false_r.
  destruct (Ascii.eqb c "%") eqn:E; [|reflexivity].
  apply Ascii.eqb_eq in E. subst c. discriminate Hc.
Qed.

Lemma all_digits_FormatUint (n : N) : all_digits (FormatUint n) = true.
Proof. now apply all_digits_FormatUint_aux. Qed.

(** [ParseUint] reads back what [FormatUint] wrote. *)
Lemma ParseUint0_FormatUint (n : N) : ParseUint0 (FormatUint n) = Some n.
Proof.
  destruct (N.eq_dec n 0) as [->|Hnz]; [reflexivity|].
  pose proof (digits_value_FormatUint_aux _ n "" (FormatUint_fuel n)) as Hval.
  pose proof (all_digits_FormatUint n) as Hdig.
  destruct (FormatUint_aux_head _ n "" (FormatUint_fuel n) Hnz)
    as (d & rest & Hd & Hhead).
  fold (FormatUint n) in Hval, Hhead.
  unfold ParseUint0. rewrite Hhead.
  assert (Hnot0 : Ascii.eqb (digit d) "0" = false).
  { assert (Hd' : (d < 10)%N) by lia.
    destruct (digit_cases d Hd')
      as [->|[->|[->|[->|[->|[->|[->|[->|[->| ->]]]]]]]]];
      solve [lia | reflexivity]. }
  rewrite Hnot0, <- Hhead, Hval. cbn [digits_value].
  rewrite (all_digits_no_underscore _ Hdig). reflexivity.
Qed.

Lemma FormatUint_aux_nonempty (fuel : nat) (n : N) (c : ascii) (acc : string) :
  exists c' rest, FormatUint_aux fuel n (String c acc) = String c' rest.
Proof.
  revert n c acc. induction fuel as [|fuel IH]; intros n c acc.
  - now exists c, acc.
  - cbn [FormatUint_aux]. destruct (n / 10 =? 0)%N; [|apply IH].
    now exists (digit (n mod 10)), (String c acc).
Qed.

(** [FormatUint] writes at least one character, and it is no sign. *)
Lemma FormatUint_head_not_sign (n : N) :
  exists c rest, FormatUint n = String c rest /\
    Ascii.eqb c "+" = false /\ Ascii.eqb c "-" = false.
Proof.
  pose proof (all_digits_FormatUint n) as Hdig.
  assert (Hne : exists c rest, FormatUint n = String c rest).
  { unfold FormatUint. cbn [FormatUint_aux].
    destruct (n / 10 =? 0)%N; [|apply FormatUint_aux_nonempty].
    now exists (digit (n mod 10)), "". }
  destruct Hne as (c & rest & Hhead). exists c, rest. split; [exact Hhead|].
  rewrite Hhead in Hdig. cbn [all_digits] in Hdig.
  apply andb_prop in Hdig. destruct Hdig as [Hc _].
  split.
  - destruct (Ascii.eqb c "+") eqn:E; [|reflexivity].
    apply Ascii.eqb_eq in E. subst c. discriminate Hc.
  - destruct (Ascii.eqb c "-") eqn:E; [|reflexivity].
    apply Ascii.eqb_eq in E. subst c. discriminate Hc.
Qed.

(** Round trip of an int through the text [ReflectFrom] stores:
    [ParseInt] reads back what [FormatInt] wrote. *)
Lemma ParseInt_FormatInt (z : Z) : in_int64 z -> ParseInt (FormatInt z) = Some z.
Proof.
  unfold in_int64, FormatInt. intros [Hlo Hhi].
  change (- 2 ^ 63)%Z with (-9223372036854775808)%Z in Hlo.
  change (2 ^ 63)%Z with (9223372036854775808)%Z in Hhi.
  destruct (z <? 0)%Z eqn:Hneg.
  - apply Z.ltb_lt in Hneg. cbn [append]. unfold ParseInt.
    change (Ascii.eqb "-" "+") with false. change (Ascii.eqb "-" "-") with true.
    cbv iota beta. rewrite ParseUint0_FormatUint.
    change (2 ^ 63)%N with 9223372036854775808%N.
    cbn [negb andb].
    destruct (9223372036854775808 <? Z.abs_N z)%N eqn:E.
    + apply N.ltb_lt in E. lia.
    + f_equal. lia.
  - apply Z.ltb_ge in Hneg.
    destruct (FormatUint_head_not_sign (Z.abs_N z)) as (c & rest & Hhead & Hp & Hm).
    unfold ParseInt. rewrite Hhead, Hp, Hm, <- Hhead.
    cbv iota beta. rewrite ParseUint0_FormatUint.
    change (2 ^ 63)%N with 9223372036854775808%N.
    cbn [negb andb].
    destruct (9223372036854775808 <=? Z.abs_N z)%N eqn:E.
    + apply N.leb_le in E. lia.
    + f_equal. lia.
Qed.

Lemma FormatInt_no_percent (z : Z) : ini.contains_percent (FormatInt z) = false.
Proof.
  unfold FormatInt. destruct (z <? 0)%Z.
  - cbn [append ini.contains_percent].
    change (Ascii.eqb "-" "%") with false. cbn [orb].
    apply all_digits_no_percent, all_digits_FormatUint.
  - apply all_digits_no_percent, all_digits_FormatUint.
Qed.

Lemma parseBool_FormatBool (b : bool) : ini.parseBool (FormatBool b) = Some b.
Proof. destruct b; reflexivity. Qed.

Lemma FormatBool_no_percent (b : bool) :
  ini.contains_percent (FormatBool b) = false.
Proof. destruct b; reflexivity. Qed.

End strconv_facts.
Import strconv_facts.

(** * Saving into a file whose other sections have no keys *)

Module local_facts.
Import ini.

Lemma set_value_app_new (k v x : string) (ks : Keys) :
  lookup k ks = None ->
  set_value k v (ks ++ [(k, x)])%list = (ks ++ [(k, v)])%list.
Proof.
  induction ks as [|[k1 v1] ks IH]; cbn [lookup set_value app].
  - rewrite String.eqb_refl. reflexivity.
  - destruct (k1 =? k); [discriminate|]. intro H. rewrite (IH H). reflexivity.
Qed.

Lemma update_section_const (f : File) (P : string) (ks : Keys) :
  find_section f P = Some ks -> update_section f P (fun _ => ks) = f.
Proof.
  induction f as [|[n ks1] f IH]; cbn [find_section update_section]; [reflexivity|].
  destruct (n =? P) eqn:E.
  - intro H. injection H as <-. reflexivity.
  - intro H. rewrite (IH H). reflexivity.
Qed.

Lemma GetKey_keys_only_in (f : File) (P k : string) (ks : Keys) :
  keys_only_in f P -> P <> "" -> find_section f P = Some ks ->
  GetKey f P k = match lookup k ks with
                 | Some v => Some (P, v)
                 | None => None
                 end.
Proof.
  intros Honly HP Hf. unfold GetKey. cbn [first_with_key]. unfold GetSection.
  rewrite (canonical_nonempty P HP), Hf.
  destruct (lookup k ks) eqn:El; [reflexivity|].
  apply first_with_key_none. intros n ks' _ Hn.
  destruct (String.eqb_spec (canonical n) P) as [E|E].
  - rewrite E, Hf in Hn. injection Hn as <-. exact El.
  - rewrite (Honly _ _ Hn E). reflexivity.
Qed.

Lemma reflect_field_local (f : File) (P : string) (ks : Keys)
    (fld : string * bool * value) :
  keys_only_in f P -> P <> "" -> find_section f P = Some ks ->
  reflect_field P f fld = update_section f P (fun _ => reflect_keys ks fld).
Proof.
  intros Honly HP Hf. destruct fld as [[k om] v].
  unfold reflect_field, reflect_keys.
  destruct (om && isEmptyValue v).
  - symmetry. now apply update_section_const.
  - rewrite (GetKey_keys_only_in f P k ks Honly HP Hf).
    destruct (lookup k ks) eqn:El.
    + unfold SetValue. now apply update_section_ext with (ks := ks).
    + unfold SetValue, NewKey. rewrite update_section_twice.
      apply update_section_ext with (ks := ks); [exact Hf|].
      rewrite El. now apply set_value_app_new.
Qed.

Lemma keys_only_in_update (f : File) (P : string) (g : Keys -> Keys) :
  keys_only_in f P -> keys_only_in (update_section f P g) P.
Proof.
  intros Honly n ks Hn HnP. apply (Honly n); [|exact HnP].
  rewrite find_section_update_other in Hn; [exact Hn | now apply not_eq_sym].
Qed.

(** [ReflectFrom] then only rewrites the keys of its own section. *)
Lemma ReflectFrom_local (fields : list (string * bool * value)) (f : File)
    (P : string) (ks : Keys) :
  keys_only_in f P -> P <> "" -> find_section f P = Some ks ->
  ReflectFrom f P fields =
  update_section f P (fun _ => fold_left reflect_keys fields ks).
Proof.
  revert f ks. induction fields as [|fld fields IH]; intros f ks Honly HP Hf.
  - cbn [fold_left]. symmetry. now apply update_section_const.
  - rewrite ReflectFrom_cons, (reflect_field_local f P ks fld Honly HP Hf).
    rewrite (IH _ (reflect_keys ks fld)).
    + rewrite update_section_twice. reflexivity.
    + now apply keys_only_in_update.
    + exact HP.
    + rewrite find_section_update_same, Hf. reflexivity.
Qed.

Lemma existsb_eqb_false (k : string) (l : list string) :
  existsb (String.eqb k) l = false -> ~ In k l.
Proof.
  intros H Hin. assert (Ht : existsb (String.eqb k) l = true).
  { apply existsb_exists. exists k. split; [exact Hin | apply String.eqb_refl]. }
  congruence.
Qed.

Lemma field_of_not_in (k : string) (fields : list (string * bool * value)) :
  ~ In k (tags fields) -> field_of k fields = None.
Proof.
  induction fields as [|[[k1 om1] v1] fields IH]; [reflexivity|].
  cbn [tags map fst In field_of]. intro H.
  destruct (String.eqb_spec k1 k) as [E|E]; [tauto|].
  apply IH. unfold tags. tauto.
Qed.

Lemma lookup_reflect_keys_same (ks : Keys) (k : string) (om : bool) (v : value) :
  lookup k (reflect_keys ks (k, om, v)) =
  if om && isEmptyValue v then lookup k ks else Some (render v).
Proof.
  unfold reflect_keys. destruct (om && isEmptyValue v); [reflexivity|].
  destruct (lookup k ks) eqn:El.
  - rewrite lookup_set_value_same, El. reflexivity.
  - rewrite lookup_app, El. cbn [lookup]. rewrite String.eqb_refl. reflexivity.
Qed.

Lemma lookup_reflect_keys_other (ks : Keys) (k k1 : string) (om : bool) (v : value) :
  k <> k1 -> lookup k (reflect_keys ks (k1, om, v)) = lookup k ks.
Proof.
  intro Hk. unfold reflect_keys. destruct (om && isEmptyValue v); [reflexivity|].
  destruct (lookup k1 ks).
  - now apply lookup_set_value_other.
  - rewrite lookup_app. cbn [lookup].
    apply not_eq_sym in Hk. apply String.eqb_neq in Hk. rewrite Hk.
    destruct (lookup k ks); reflexivity.
Qed.

(** The keys of the section after [ReflectFrom]: every field that is not
    omitted has its text under its tag. *)
Lemma lookup_reflected (fields : list (string * bool * value)) (ks : Keys)
    (k : string) :
  distinct (tags fields) = true ->
  lookup k (fold_left reflect_keys fields ks) =
  match field_of k fields with
  | Some (om, v) => if om && isEmptyValue v then lookup k ks else Some (render v)
  | None => lookup k ks
  end.
Proof.
  revert ks. induction fields as [|[[k1 om1] v1] fields IH]; intros ks Hd.
  - reflexivity.
  - cbn [tags map fst distinct] in Hd. apply andb_prop in Hd.
    destruct Hd as [Hk1 Hd]. apply negb_true_iff in Hk1.
    apply existsb_eqb_false in Hk1.
    cbn [fold_left field_of]. rewrite (IH _ Hd).
    destruct (String.eqb_spec k1 k) as [E|E].
    + subst k1. rewrite (field_of_not_in k fields Hk1).
      apply lookup_reflect_keys_same.
    + rewrite lookup_reflect_keys_other by now apply not_eq_sym.
      reflexivity.
Qed.

End local_facts.
Import local_facts.

(** * Saving *)

(** What a save that returns no error went through. *)
Lemma SaveIDPAccount_success `{Externals} {T : IniText} (d d' : disk) (P : string)
    (account : IDPAccount) :
  SaveIDPAccount d P account = (d', None) ->
  Validate account = None /\
  exists cfg cfg',
    LoadSources save_options d = Ok cfg /\ ini.NewSection cfg P = Ok cfg' /\
    write_failure d = None /\
    saved_sections cfg P account = ini.ReflectFrom cfg' P (struct_fields account) /\
    d' = written (saved_sections cfg P account).
Proof.
  unfold SaveIDPAccount, SaveTo, saved_sections, written.
  destruct (Validate account); [discriminate|].
  destruct (LoadSources save_options d) as [cfg|e] eqn:Hload; [|discriminate].
  destruct (ini.NewSection cfg P) as [cfg'|e] eqn:Hnew; [|discriminate].
  destruct (write_failure d) eqn:Hw; [discriminate|].
  intro Hs. apply (f_equal fst) in Hs. cbn [fst] in Hs. subst d'.
  split; [reflexivity|]. exists cfg, cfg'. rewrite Hnew. repeat split; assumption.
Qed.

(** The other way round: what a save does when nothing fails. *)
Lemma SaveIDPAccount_writes `{Externals} {T : IniText} (d : disk) (cfg : ini.File)
    (P : string) (account : IDPAccount) :
  Validate account = None ->
  LoadSources save_options d = Ok cfg ->
  write_failure d = None ->
  P <> "" ->
  SaveIDPAccount d P account = (written (saved_sections cfg P account), None).
Proof.
  intros Hv Hload Hw HP.
  unfold SaveIDPAccount, SaveTo, saved_sections, written, ini.NewSection.
  rewrite Hv, Hload, Hw, (eqb_empty_false _ HP).
  destruct (ini.find_section cfg P); reflexivity.
Qed.

(** The section of the profile is there when the fields are written. *)
Lemma NewSection_saved (cfg : ini.File) (P : string) :
  P <> "" ->
  exists cfg' ks0,
    ini.NewSection cfg P = Ok cfg' /\ ini.find_section cfg' P = Some ks0.
Proof.
  intro HP. unfold ini.NewSection. rewrite (eqb_empty_false _ HP).
  destruct (ini.find_section cfg P) as [ks0|] eqn:E.
  - now exists cfg, ks0.
  - exists (cfg ++ [(P, [])])%list, []. split; [reflexivity|].
    rewrite find_section_app, E, String.eqb_refl. reflexivity.
Qed.

(** X12. A save leaves every section [B] of the file, as its own load
    returned it, in what it hands to the writer, keys and values, when
    [B] is neither the profile [A] nor a parent section of [A] (a section
    named by a prefix of [A] that ends just before a ".", the default
    section for the empty prefix). *)
Theorem saved_sections_frame `{Externals} {T : IniText} (d d' : disk)
    (cfg : ini.File) (A B : string) (ks : ini.Keys) (account : IDPAccount) :
  LoadSources save_options d = Ok cfg ->
  ini.find_section cfg B = Some ks ->
  ~ In B (lookup_sections A) ->
  SaveIDPAccount d A account = (d', None) ->
  d' = written (saved_sections cfg A account) /\
  ini.find_section (saved_sections cfg A account) B = Some ks.
Proof.
  intros Hd HB Hun Hsave.
  destruct (SaveIDPAccount_success _ _ _ _ Hsave)
    as (_ & cfg0 & cfg' & Hload & Hnew & _ & Heq & ->).
  rewrite Hd in Hload. injection Hload as <-.
  split; [reflexivity|]. rewrite Heq.
  destruct (NewSection_inv _ _ _ Hnew) as (HA & _ & Hother).
  rewrite ReflectFrom_frame by assumption.
  rewrite Hother; [exact HB|].
  intros ->. apply Hun. unfold lookup_sections. cbn [map]. left.
  now apply canonical_nonempty.
Qed.

Lemma saved_sections_frame_witness :
  fst (SaveIDPAccount (H := sample_externals) team_disk "dev" other_account)
    = written (saved_sections team_file "dev" other_account) /\
  ini.find_section (saved_sections team_file "dev" other_account) "team"
    = Some team_keys.
Proof.
  apply (saved_sections_frame (H := sample_externals) team_disk _ team_file
           "dev" "team" team_keys other_account).
  - vm_compute. reflexivity.
  - vm_compute. reflexivity.
  - vm_compute. intros [Hc|[]]. discriminate Hc.
  - vm_compute. reflexivity.
Defined.

(** C7, at the input on which the code fails it. On a file that the
    load of the save reads as the section "team" written for
    [okta_account], a save of [other_account] under "team.dev" hands to
    the writer a section "team" whose URL is the one of [other_account],
    and a section "team.dev" without a key. *)
Theorem SaveIDPAccount_alters_parent_section `{Externals} {T : IniText} (d : disk) :
  Validate other_account = None ->
  LoadSources save_options d = Ok team_file ->
  write_failure d = None ->
  option_map (ini.lookup "url") (ini.find_section team_file "team")
    = Some (Some "https://idp.example.com") /\
  SaveIDPAccount d "team.dev" other_account
    = (written (saved_sections team_file "team.dev" other_account), None) /\
  option_map (ini.lookup "url")
    (ini.find_section (saved_sections team_file "team.dev" other_account) "team")
    = Some (Some "https://other.example.com") /\
  ini.find_section (saved_sections team_file "team.dev" other_account) "team.dev"
    = Some [].
Proof.
  intros Hv Hload Hw.
  split; [vm_compute; reflexivity|].
  split; [apply SaveIDPAccount_writes; [assumption..|discriminate]|].
  split; vm_compute; reflexivity.
Qed.

Lemma SaveIDPAccount_alters_parent_section_witness :
  option_map (ini.lookup "url") (ini.find_section team_file "team")
    = Some (Some "https://idp.example.com") /\
  SaveIDPAccount (H := sample_externals) team_disk "team.dev" other_account
    = (written (saved_sections team_file "team.dev" other_account), None) /\
  option_map (ini.lookup "url")
    (ini.find_section (saved_sections team_file "team.dev" other_account) "team")
    = Some (Some "https://other.example.com") /\
  ini.find_section (saved_sections team_file "team.dev" other_account) "team.dev"
    = Some [].
Proof.
  apply (SaveIDPAccount_alters_parent_section (H := sample_externals) team_disk);
    vm_compute; reflexivity.
Defined.

(** The key "name" after all the fields were written. *)
Lemma ReflectFrom_name (cfg : ini.File) (P : string) (ks0 : ini.Keys)
    (account : IDPAccount) :
  P <> "" -> ini.find_section cfg P = Some ks0 ->
  exists o, ini.GetKey (ini.ReflectFrom cfg P (struct_fields account)) P "name"
            = Some (o, Name account).
Proof.
  intros HP Hks0.
  destruct (GetKey_reflect_field_same cfg P "name" (ini.VString (Name account))
              ks0 HP Hks0) as [o Ho].
  exists o. unfold struct_fields.
  rewrite ReflectFrom_cons, GetKey_ReflectFrom_other.
  - exact Ho.
  - repeat (constructor; [cbn [fst]; discriminate|]). constructor.
Qed.

(** C5, as amended. A save that succeeds, under a profile name without a
    ".", hands the record's name attribute to the writer as the value of
    the key "name" of the section of the profile: what is written to the
    file is the text of sections among which the section of the profile
    has that key with that value. *)
Theorem SaveIDPAccount_writes_name `{Externals} {T : IniText} (d d' : disk)
    (P : string) (account : IDPAccount) :
  SaveIDPAccount d P account = (d', None) ->
  ini.parents P = [] ->
  exists cfg ks,
    LoadSources save_options d = Ok cfg /\
    d' = written (saved_sections cfg P account) /\
    ini.find_section (saved_sections cfg P account) P = Some ks /\
    ini.lookup "name" ks = Some (Name account).
Proof.
  intros Hsave Hpar.
  destruct (SaveIDPAccount_success _ _ _ _ Hsave)
    as (_ & cfg & cfg' & Hload & Hnew & _ & Heq & ->).
  destruct (NewSection_inv _ _ _ Hnew) as (HP & [ks0 Hks0] & _).
  destruct (ReflectFrom_name cfg' P ks0 account HP Hks0) as [o Hfinal].
  destruct (GetKey_owner _ _ _ _ _ Hfinal) as (Hin & ks & Hks & Hl).
  rewrite Hpar in Hin. cbn [map In] in Hin. destruct Hin as [<-|[]].
  rewrite (canonical_nonempty P HP) in Hks.
  exists cfg, ks. rewrite Heq. repeat split; assumption.
Qed.

Lemma SaveIDPAccount_writes_name_witness :
  exists cfg ks,
    LoadSources save_options empty_disk = Ok cfg /\
    fst (SaveIDPAccount (H := sample_externals) empty_disk "dev" okta_account)
      = written (saved_sections cfg "dev" okta_account) /\
    ini.find_section (saved_sections cfg "dev" okta_account) "dev" = Some ks /\
    ini.lookup "name" ks = Some "work".
Proof.
  apply (SaveIDPAccount_writes_name (H := sample_externals) empty_disk _ "dev"
           okta_account).
  - vm_compute. reflexivity.
  - reflexivity.
Defined.

(** The claim C5 as it stands fails: when [okta_account], whose name is
    "work", is saved under "dev" to an empty file, the sections handed
    to the writer have the key "name" with the value "work" in the
    section "dev". *)
Lemma SaveIDPAccount_name_is_a_key :
  SaveIDPAccount (H := sample_externals) empty_disk "dev" okta_account
    = (written (saved_sections ini.Empty "dev" okta_account), None) /\
  option_map (ini.lookup "name")
    (ini.find_section (saved_sections ini.Empty "dev" okta_account) "dev")
    = Some (Some "work").
Proof. vm_compute. split; reflexivity. Qed.

(** * Loading *)

(** A section from which no key can be found maps nothing. *)
Lemma MapTo_no_key (f : ini.File) (sname : string) (a : IDPAccount) :
  (forall k, ini.GetKey f sname k = None) -> MapTo f sname a = a.
Proof.
  intro Hnone.
  unfold MapTo, ini.mapString, ini.mapBool, ini.mapInt, ini.Key_String.
  rewrite !Hnone. destruct a; reflexivity.
Qed.

Lemma parents_canonical (P : string) :
  ini.parents (ini.canonical P) = ini.parents P.
Proof.
  unfold ini.canonical. destruct (P =? "") eqn:E; [|reflexivity].
  apply String.eqb_eq in E. subst P. reflexivity.
Qed.

(** [File.Section] on a name the file does not have. *)
Lemma File_Section_absent (f : ini.File) (P : string) :
  ini.GetSection f P = None ->
  ini.File_Section f P = ((f ++ [(ini.canonical P, [])])%list, ini.canonical P).
Proof.
  intro Habs. unfold ini.File_Section. rewrite Habs.
  unfold ini.GetSection in Habs. unfold ini.NewSection.
  destruct (ini.find_section f (ini.canonical P)); [discriminate|].
  pose proof (canonical_not_empty P) as Hne.
  apply String.eqb_neq in Hne. rewrite Hne. reflexivity.
Qed.

Lemma parents_hold_no_key_spec (f : ini.File) (P q : string) (ks : ini.Keys) :
  parents_hold_no_key f P = true -> In q (ini.parents P) ->
  ini.find_section f (ini.canonical q) = Some ks -> ks = [].
Proof.
  unfold parents_hold_no_key. rewrite forallb_forall.
  intros Hall Hq Hf. specialize (Hall q Hq).
  unfold ini.GetSection in Hall. rewrite Hf in Hall.
  destruct ks; [reflexivity | discriminate].
Qed.

(** The record read for a profile that has no section and inherits
    nothing. *)
Lemma readAccount_absent (f : ini.File) (P : string) :
  ini.GetSection f P = None -> parents_hold_no_key f P = true ->
  readAccount P f = Ok NewIDPAccount.
Proof.
  intros Habs Hpar. unfold readAccount.
  rewrite (File_Section_absent f P Habs).
  rewrite MapTo_no_key; [reflexivity|].
  intro k. unfold ini.GetKey. apply first_with_key_none.
  intros n ks Hn. rewrite find_section_app.
  unfold ini.GetSection in Habs.
  destruct Hn as [<-|Hn].
  - rewrite canonical_idem.
    destruct (ini.find_section f (ini.canonical P)); [discriminate|].
    rewrite String.eqb_refl. intro Hks. injection Hks as <-. reflexivity.
  - rewrite parents_canonical in Hn.
    destruct (ini.find_section f (ini.canonical n)) as [ks'|] eqn:Ef.
    + intro Hks. injection Hks as <-.
      rewrite (parents_hold_no_key_spec f P n ks' Hpar Hn Ef). reflexivity.
    + destruct (ini.canonical P =? ini.canonical n); [|discriminate].
      intro Hks. injection Hks as <-. reflexivity.
Qed.

(** C3, at the input on which the code fails it. On a file that the
    load reads as the section "team" written for [okta_account], there
    is no section "team.dev", yet the record loaded for "team.dev" has
    the URL, the provider and the MFA of the section "team", not the
    empty fields of the default record. *)
Theorem LoadIDPAccount_absent_inherits_parent {T : IniText} (d : disk) :
  LoadSources load_options d = Ok team_file ->
  ini.GetSection team_file "team.dev" = None /\
  exists account,
    LoadIDPAccount d "team.dev" = Ok account /\
    URL account = "https://idp.example.com" /\
    Provider account = "Okta" /\
    MFA account = "push" /\
    account <> set_Name "team.dev" NewIDPAccount.
Proof.
  intro Hload. split; [vm_compute; reflexivity|].
  unfold LoadIDPAccount. rewrite Hload.
  eexists. split; [vm_compute; reflexivity|].
  repeat split. discriminate.
Qed.

Lemma LoadIDPAccount_absent_inherits_parent_witness :
  ini.GetSection team_file "team.dev" = None /\
  exists account,
    LoadIDPAccount team_disk "team.dev" = Ok account /\
    URL account = "https://idp.example.com" /\
    Provider account = "Okta" /\
    MFA account = "push" /\
    account <> set_Name "team.dev" NewIDPAccount.
Proof.
  apply (LoadIDPAccount_absent_inherits_parent team_disk).
  vm_compute. reflexivity.
Defined.

(** [readAccount] never fails. *)
Lemma readAccount_Ok (P : string) (f : ini.File) :
  exists account, readAccount P f = Ok account.
Proof.
  unfold readAccount. destruct (ini.File_Section f P) as [cfg sec].
  eexists. reflexivity.
Qed.

(** An error of [LoadSources] is one of the library. *)
Lemma LoadSources_Err {T : IniText} (opts : LoadOptions) (d : disk) (e : error) :
  LoadSources opts d = Err e -> exists msg, e = external msg.
Proof.
  unfold LoadSources. destruct (file d) as [t|].
  - destruct (parse opts t) as [f|msg]; [discriminate|].
    intro He. injection He as <-. now exists msg.
  - destruct (Loose opts); [discriminate|].
    intro He. injection He as <-. eexists. reflexivity.
Qed.

(** The only error of [LoadIDPAccount]: the file does not load. *)
Lemma LoadIDPAccount_Err {T : IniText} (d : disk) (P : string) (err : error) :
  LoadIDPAccount d P = Err err ->
  exists msg, LoadSources load_options d = Err (external msg) /\
    err = errors_Wrap (external msg) "Unable to load configuration file".
Proof.
  unfold LoadIDPAccount.
  destruct (LoadSources load_options d) as [f|e] eqn:Hd.
  - destruct (readAccount_Ok P f) as [a ->]. discriminate.
  - destruct (LoadSources_Err _ _ _ Hd) as [msg ->].
    intro He. injection He as <-. now exists msg.
Qed.

(** C9. [LoadIDPAccount] never returns [ErrIdpAccountNotFound], bare or
    wrapped. For a profile without a section in a file that loads, it
    returns the default record, read through a new section that has no
    key of its own, with its name set to the profile name: when no
    parent section holds a key either, that is the default record under
    the name of the profile. *)
Theorem LoadIDPAccount_never_not_found {T : IniText} (d : disk) (P : string) :
  (forall err, LoadIDPAccount d P = Err err ->
               ~ In ErrIdpAccountNotFound (chain err)) /\
  (forall f, LoadSources load_options d = Ok f ->
             ini.GetSection f P = None ->
     LoadIDPAccount d P =
       Ok (set_Name P
             (MapTo (f ++ [(ini.canonical P, [])])%list (ini.canonical P)
                NewIDPAccount)) /\
     (parents_hold_no_key f P = true ->
      LoadIDPAccount d P = Ok (set_Name P NewIDPAccount))).
Proof.
  split.
  - intros err Herr.
    destruct (LoadIDPAccount_Err d P err Herr) as (msg & _ & ->).
    cbn [chain In]. intros [Hc|[Hc|[]]]; discriminate Hc.
  - intros f Hload Habs. unfold LoadIDPAccount. rewrite Hload. split.
    + unfold readAccount. rewrite (File_Section_absent f P Habs). reflexivity.
    + intro Hpar. rewrite (readAccount_absent f P Habs Hpar). reflexivity.
Qed.

Lemma LoadIDPAccount_never_not_found_witness :
  (LoadIDPAccount unreadable_disk "team" =
     Err (errors_Wrap (external "unclosed section: [team")
            "Unable to load configuration file") /\
   ~ In ErrIdpAccountNotFound
       (chain (errors_Wrap (external "unclosed section: [team")
                 "Unable to load configuration file"))) /\
  LoadIDPAccount team_disk "dev" =
    Ok (set_Name "dev"
          (MapTo (team_file ++ [(ini.canonical "dev", [])])%list
             (ini.canonical "dev") NewIDPAccount)) /\
  LoadIDPAccount team_disk "dev" = Ok (set_Name "dev" NewIDPAccount).
Proof.
  split.
  - split; [reflexivity|].
    apply (proj1 (LoadIDPAccount_never_not_found unreadable_disk "team")).
    reflexivity.
  - assert (Hl : LoadSources load_options team_disk = Ok team_file)
      by (vm_compute; reflexivity).
    assert (Habs : ini.GetSection team_file "dev" = None)
      by (vm_compute; reflexivity).
    destruct (proj2 (LoadIDPAccount_never_not_found team_disk "dev")
                team_file Hl Habs) as [H1 H2].
    split; [exact H1 | apply H2; vm_compute; reflexivity].
Defined.

(** * Save, then load *)

Lemma transform_loop_no_reference (n : nat) (f : ini.File) (o k v : string) :
  ini.find_var v = None -> ini.transform_loop n f o k v = v.
Proof.
  intro Hv. destruct n; cbn [ini.transform_loop]; [reflexivity|].
  rewrite Hv. reflexivity.
Qed.

(** A value without a reference is the text of its key. *)
Lemma transformValue_no_reference (f : ini.File) (o k v : string) :
  no_reference v = true -> ini.transformValue f o k v = v.
Proof.
  unfold no_reference, ini.transformValue. intro Hv.
  destruct (ini.find_var v) eqn:E; [discriminate|].
  destruct (negb (ini.contains_percent v)); [reflexivity|].
  now apply transform_loop_no_reference.
Qed.

Lemma transformValue_no_percent (f : ini.File) (o k v : string) :
  ini.contains_percent v = false -> ini.transformValue f o k v = v.
Proof. unfold ini.transformValue. intros ->. reflexivity. Qed.

Lemma if_empty_same (v : string) : (if v =? "" then "" else v) = v.
Proof.
  destruct (String.eqb_spec v ""); [now subst | reflexivity].
Qed.

Lemma distinct_struct_fields (a : IDPAccount) :
  distinct (tags (struct_fields a)) = true.
Proof. reflexivity. Qed.

Section SavedSection.

Variables (P : string) (a : IDPAccount) (f2 : ini.File).
Hypothesis HP : P <> "".
Hypothesis Honly : keys_only_in f2 P.
Hypothesis Hf2 :
  ini.find_section f2 P = Some (fold_left reflect_keys (struct_fields a) []).

Lemma Key_String_saved (k : string) :
  ini.Key_String f2 P k =
  match field_of k (struct_fields a) with
  | Some (om, v) =>
      if om && ini.isEmptyValue v then None
      else Some (ini.transformValue f2 P k (ini.render v))
  | None => None
  end.
Proof.
  unfold ini.Key_String.
  rewrite (GetKey_keys_only_in f2 P k _ Honly HP Hf2).
  rewrite (lookup_reflected _ _ _ (distinct_struct_fields a)).
  destruct (field_of k (struct_fields a)) as [[om v]|]; [|reflexivity].
  destruct (om && ini.isEmptyValue v); reflexivity.
Qed.

Lemma mapString_saved (k : string) (om : bool) (v cur : string) :
  field_of k (struct_fields a) = Some (om, ini.VString v) ->
  no_reference v = true ->
  ini.mapString f2 P k cur = if v =? "" then cur else v.
Proof.
  intros Hk Hv. unfold ini.mapString. rewrite Key_String_saved, Hk.
  cbn [ini.isEmptyValue ini.render].
  rewrite (transformValue_no_reference _ _ _ _ Hv).
  destruct om; cbn [andb]; destruct (v =? "") eqn:E; rewrite ?E; reflexivity.
Qed.

Lemma mapBool_saved (k : string) (om b : bool) :
  field_of k (struct_fields a) = Some (om, ini.VBool b) ->
  ini.mapBool f2 P k false = b.
Proof.
  intro Hk. unfold ini.mapBool. rewrite Key_String_saved, Hk.
  cbn [ini.isEmptyValue ini.render].
  rewrite (transformValue_no_percent _ _ _ _ (FormatBool_no_percent b)).
  destruct om, b; reflexivity.
Qed.

Lemma mapInt_saved (k : string) (z cur : Z) :
  field_of k (struct_fields a) = Some (false, ini.VInt z) ->
  in_int64 z ->
  ini.mapInt f2 P k cur = z.
Proof.
  intros Hk Hz. unfold ini.mapInt. rewrite Key_String_saved, Hk.
  cbn [andb ini.render].
  rewrite (transformValue_no_percent _ _ _ _ (FormatInt_no_percent z)).
  rewrite (ParseInt_FormatInt z Hz). reflexivity.
Qed.

Ltac in_list := repeat (first [left; reflexivity | right]).

(** The record mapped from the saved section. *)
Lemma MapTo_saved :
  no_references a = true -> ints_in_range a -> Profile a <> "" ->
  set_Name P (MapTo f2 P NewIDPAccount) = after_round_trip P a.
Proof.
  intros Href [Ht Hs] Hprof.
  unfold no_references in Href. rewrite forallb_forall in Href.
  assert (Hstr : forall k om v cur,
             field_of k (struct_fields a) = Some (om, ini.VString v) ->
             In v (loaded_strings a) ->
             ini.mapString f2 P k cur = if v =? "" then cur else v).
  { intros k om v cur Hk Hin. apply (mapString_saved k om v cur Hk).
    now apply Href. }
  unfold MapTo, set_Name, loaded_strings in *.
  cbn [Name AppID URL Username Provider BrowserType BrowserExecutablePath
       BrowserAutoFill MFA MFAIPAddress SkipVerify Timeout
       AmazonWebservicesURN SessionDuration Profile ResourceID Subdomain
       RoleARN PolicyFile PolicyARNs Region HttpAttemptsCount HttpRetryDelay
       CredentialsFile SAMLCache SAMLCacheFile TargetURL
       DisableRememberDevice DisableSessions DownloadBrowser
       BrowserDriverDir Headless Prompter KCAuthErrorMessage
       KCAuthErrorElement KCBroker NewIDPAccount].
  rewrite (Hstr "app_id" _ (AppID a) _ eq_refl) by in_list.
  rewrite (Hstr "url" _ (URL a) _ eq_refl) by in_list.
  rewrite (Hstr "username" _ (Username a) _ eq_refl) by in_list.
  rewrite (Hstr "provider" _ (Provider a) _ eq_refl) by in_list.
  rewrite (Hstr "browser_type" _ (BrowserType a) _ eq_refl) by in_list.
  rewrite (Hstr "browser_executable_path" _ (BrowserExecutablePath a) _ eq_refl)
    by in_list.
  rewrite (Hstr "mfa" _ (MFA a) _ eq_refl) by in_list.
  rewrite (Hstr "mfa_ip_address" _ (MFAIPAddress a) _ eq_refl) by in_list.
  rewrite (Hstr "aws_urn" _ (AmazonWebservicesURN a) _ eq_refl) by in_list.
  rewrite (Hstr "aws_profile" _ (Profile a) _ eq_refl) by in_list.
  rewrite (Hstr "resource_id" _ (ResourceID a) _ eq_refl) by in_list.
  rewrite (Hstr "subdomain" _ (Subdomain a) _ eq_refl) by in_list.
  rewrite (Hstr "role_arn" _ (RoleARN a) _ eq_refl) by in_list.
  rewrite (Hstr "policy_file" _ (PolicyFile a) _ eq_refl) by in_list.
  rewrite (Hstr "policy_arn_list" _ (PolicyARNs a) _ eq_refl) by in_list.
  rewrite (Hstr "region" _ (Region a) _ eq_refl) by in_list.
  rewrite (Hstr "http_attempts_count" _ (HttpAttemptsCount a) _ eq_refl)
    by in_list.
  rewrite (Hstr "http_retry_delay" _ (HttpRetryDelay a) _ eq_refl) by in_list.
  rewrite (Hstr "credentials_file" _ (CredentialsFile a) _ eq_refl) by in_list.
  rewrite (Hstr "saml_cache_file" _ (SAMLCacheFile a) _ eq_refl) by in_list.
  rewrite (Hstr "target_url" _ (TargetURL a) _ eq_refl) by in_list.
  rewrite (Hstr "browser_driver_dir" _ (BrowserDriverDir a) _ eq_refl)
    by in_list.
  rewrite (Hstr "prompter" _ (Prompter a) _ eq_refl) by in_list.
  rewrite (Hstr "kc_auth_error_message" _ (KCAuthErrorMessage a) _ eq_refl)
    by in_list.
  rewrite (Hstr "kc_auth_error_element" _ (KCAuthErrorElement a) _ eq_refl)
    by in_list.
  rewrite (Hstr "kc_broker" _ (KCBroker a) _ eq_refl) by in_list.
  rewrite (mapBool_saved "browser_autofill" _ (BrowserAutoFill a) eq_refl).
  rewrite (mapBool_saved "skip_verify" _ (SkipVerify a) eq_refl).
  rewrite (mapBool_saved "saml_cache" _ (SAMLCache a) eq_refl).
  rewrite (mapBool_saved "disable_remember_device" _
             (DisableRememberDevice a) eq_refl).
  rewrite (mapBool_saved "disable_sessions" _ (DisableSessions a) eq_refl).
  rewrite (mapBool_saved "download_browser_driver" _ (DownloadBrowser a)
             eq_refl).
  rewrite (mapBool_saved "headless" _ (Headless a) eq_refl).
  rewrite (mapInt_saved "timeout" (Timeout a) _ eq_refl Ht).
  rewrite (mapInt_saved "aws_session_duration" (SessionDuration a) _ eq_refl Hs).
  rewrite !if_empty_same.
  rewrite (eqb_empty_false _ Hprof).
  unfold after_round_trip, set_Name, set_AmazonWebservicesURN.
  destruct (AmazonWebservicesURN a =? "") eqn:E; destruct a; reflexivity.
Qed.

End SavedSection.

Lemma NewSection_Empty (P : string) :
  P <> "" ->
  exists cfg',
    ini.NewSection ini.Empty P = Ok cfg' /\
    ini.find_section cfg' P = Some [] /\
    keys_only_in cfg' P /\
    ini.find_section cfg' ini.DefaultSection = Some [].
Proof.
  intro HP. unfold ini.NewSection. rewrite (eqb_empty_false _ HP).
  unfold ini.Empty. cbn [ini.find_section].
  destruct (String.eqb_spec ini.DefaultSection P) as [E|E].
  - exists [(ini.DefaultSection, [])]. cbn [ini.find_section].
    rewrite <- E, String.eqb_refl. repeat split.
    intros n ks Hn Hne. cbn [ini.find_section] in Hn.
    destruct (ini.DefaultSection =? n); [congruence | discriminate].
  - exists [(ini.DefaultSection, []); (P, [])]. cbn [app ini.find_section].
    apply String.eqb_neq in E. rewrite E, !String.eqb_refl. repeat split.
    intros n ks Hn Hne. cbn [ini.find_section] in Hn.
    destruct (ini.DefaultSection =? n); [congruence|].
    destruct (P =? n); [congruence | discriminate].
Qed.

Lemma Validate_None_Profile `{Externals} (a : IDPAccount) :
  Validate a = None -> Profile a <> "".
Proof.
  unfold Validate. intros Hv Hp. rewrite Hp in Hv.
  destruct (Validate_switch a); [discriminate|].
  destruct (URL a =? ""); [discriminate|].
  destruct (url_Parse (URL a)); [discriminate|].
  destruct (Provider a =? ""); [discriminate|].
  destruct (negb (Provider a =? "Browser") && (MFA a =? "")); discriminate.
Qed.

(** [File.Section] on a name the file has. *)
Lemma File_Section_present (f : ini.File) (P : string) (ks : ini.Keys) :
  P <> "" -> ini.find_section f P = Some ks -> ini.File_Section f P = (f, P).
Proof.
  intros HP Hf. unfold ini.File_Section, ini.GetSection.
  rewrite (canonical_nonempty P HP), Hf. reflexivity.
Qed.

Lemma with_default_present (f : ini.File) (ks : ini.Keys) :
  ini.find_section f ini.DefaultSection = Some ks -> ini.with_default f = f.
Proof. unfold ini.with_default. intros ->. reflexivity. Qed.

(** What a load finds on a disk whose text parses back as written. *)
Lemma LoadSources_written {T : IniText} (opts : LoadOptions) (f : ini.File)
    (ks : ini.Keys) :
  reads_back opts f -> ini.find_section f ini.DefaultSection = Some ks ->
  LoadSources opts (written f) = Ok f.
Proof.
  intros Hback Hdef. unfold LoadSources, written. cbn [file].
  rewrite Hback, (with_default_present f ks Hdef). reflexivity.
Qed.

(** C1, as amended. A record that passes validation, saved under a
    profile name [P] that is not empty to an empty backing file and then
    loaded as [P], comes back with its name set to [P] and every other
    field as it was saved, except that an empty federation URN comes back
    as the default URN. The int fields are in the range of a Go int, the
    string fields other than the name hold no reference "%(key)s", and
    the text that ini writes for the record parses back, under the
    options of the load, to the sections and keys that were written. *)
Theorem SaveIDPAccount_LoadIDPAccount_round_trip `{Externals} {T : IniText}
    (d : disk) (P : string) (account : IDPAccount) :
  Validate account = None ->
  LoadSources save_options d = Ok ini.Empty ->
  write_failure d = None ->
  P <> "" ->
  no_references account = true ->
  ints_in_range account ->
  reads_back load_options (saved_sections ini.Empty P account) ->
  exists d',
    SaveIDPAccount d P account = (d', None) /\
    LoadIDPAccount d' P = Ok (after_round_trip P account).
Proof.
  intros Hv Hload Hw HP Href Hints Hback.
  exists (written (saved_sections ini.Empty P account)).
  split; [now apply SaveIDPAccount_writes|].
  revert Hback. unfold saved_sections.
  destruct (NewSection_Empty P HP) as (cfg' & Hnew & HfP & Honly & Hdef).
  rewrite Hnew.
  rewrite (ReflectFrom_local (struct_fields account) cfg' P [] Honly HP HfP).
  set (K := fold_left reflect_keys (struct_fields account) []).
  set (f2 := ini.update_section cfg' P (fun _ => K)).
  intro Hback.
  assert (Hf2 : ini.find_section f2 P = Some K).
  { unfold f2. rewrite find_section_update_same, HfP. reflexivity. }
  assert (Hdef2 : exists ks, ini.find_section f2 ini.DefaultSection = Some ks).
  { unfold f2. rewrite find_section_update, Hdef.
    destruct (P =? ini.DefaultSection); eexists; reflexivity. }
  destruct Hdef2 as [ks Hdef2].
  unfold LoadIDPAccount.
  rewrite (LoadSources_written load_options f2 ks Hback Hdef2).
  unfold readAccount. rewrite (File_Section_present f2 P K HP Hf2).
  rewrite (MapTo_saved P account f2 HP (keys_only_in_update _ _ _ Honly) Hf2
             Href Hints (Validate_None_Profile account Hv)).
  reflexivity.
Qed.

Lemma SaveIDPAccount_LoadIDPAccount_round_trip_witness :
  exists d',
    SaveIDPAccount (H := sample_externals) empty_disk "dev" okta_account
      = (d', None) /\
    LoadIDPAccount d' "dev" = Ok (after_round_trip "dev" okta_account).
Proof.
  apply (SaveIDPAccount_LoadIDPAccount_round_trip (H := sample_externals)
           empty_disk "dev" okta_account).
  - vm_compute. reflexivity.
  - reflexivity.
  - reflexivity.
  - discriminate.
  - vm_compute. reflexivity.
  - unfold ints_in_range, in_int64. vm_compute. repeat split; discriminate.
  - reflexivity.
Defined.

(** The claim C1 as it stands fails for a record whose federation URN is
    empty: it passes validation and is saved, the sections written have
    the key "aws_urn" with the empty value, and the record loaded from
    them has the default URN. *)
Lemma round_trip_replaces_empty_URN :
  Validate (H := sample_externals) no_urn_account = None /\
  AmazonWebservicesURN no_urn_account = "" /\
  SaveIDPAccount (H := sample_externals) empty_disk "dev" no_urn_account
    = (written (saved_sections ini.Empty "dev" no_urn_account), None) /\
  option_map (ini.lookup "aws_urn")
    (ini.find_section (saved_sections ini.Empty "dev" no_urn_account) "dev")
    = Some (Some "") /\
  exists loaded,
    LoadIDPAccount (T := sample_ini)
      (written (saved_sections ini.Empty "dev" no_urn_account)) "dev"
      = Ok loaded /\
    AmazonWebservicesURN loaded = "urn:amazon:webservices".
Proof.
  split; [vm_compute; reflexivity|]. split; [reflexivity|].
  split; [vm_compute; reflexivity|]. split; [vm_compute; reflexivity|].
  eexists. split; [vm_compute; reflexivity | reflexivity].
Qed.

(** Two more inputs on which a save does not come back: the empty
    profile name, for which no section can be made, and a value that
    refers to another key. *)
Example SaveIDPAccount_empty_profile_name :
  SaveIDPAccount (H := sample_externals) empty_disk "" okta_account =
    (empty_disk,
     Some (errors_Wrap (external "empty section name")
             "Unable to build a new section in configuration file")).
Proof. vm_compute. reflexivity. Qed.

Example round_trip_expands_reference :
  exists loaded,
    LoadIDPAccount
      (fst (SaveIDPAccount (H := sample_externals) empty_disk "dev"
              (set_AppID "%(mfa)s" okta_account)))
      "dev" = Ok loaded /\
    AppID loaded = "push".
Proof. eexists. split; [vm_compute; reflexivity | reflexivity]. Qed.

(** * Further properties of validation *)

Lemma eqb_empty_true_iff (s : string) : (s =? "") = false <-> s <> "".
Proof. apply String.eqb_neq. Qed.

Lemma if_empty_None_iff (s : string) (e : error) (r : option error) :
  (if s =? "" then Some e else r) = None <-> s <> "" /\ r = None.
Proof.
  destruct (String.eqb_spec s "") as [E|E]; split.
  - discriminate.
  - intros [Hs _]. contradiction.
  - intro Hr. now split.
  - intros [_ Hr]. exact Hr.
Qed.

Lemma Validate_switch_None_iff (ia : IDPAccount) :
  Validate_switch ia = None <->
  (Provider ia = "OneLogin" -> AppID ia <> "" /\ Subdomain ia <> "") /\
  (Provider ia = "F5APM" -> ResourceID ia <> "") /\
  (Provider ia = "AzureAD" -> AppID ia <> "").
Proof.
  unfold Validate_switch.
  destruct (String.eqb_spec (Provider ia) "OneLogin") as [E1|E1].
  - rewrite !if_empty_None_iff. rewrite E1. split.
    + intros (Ha & Hs & _). repeat split; solve [discriminate | auto].
    + intros (H1 & _ & _). destruct (H1 eq_refl). auto.
  - destruct (String.eqb_spec (Provider ia) "F5APM") as [E2|E2].
    + rewrite !if_empty_None_iff. rewrite E2. split.
      * intros (Hr & _). repeat split; solve [discriminate | auto].
      * intros (_ & H2 & _). auto.
    + destruct (String.eqb_spec (Provider ia) "AzureAD") as [E3|E3].
      * rewrite !if_empty_None_iff. rewrite E3. split.
        -- intros (Ha & _). repeat split; solve [discriminate | auto].
        -- intros (_ & _ & H3). auto.
      * split; [|reflexivity]. intros _. repeat split; contradiction.
Qed.

(** X1. [Validate] returns no error exactly when the fields the provider
    needs are set, the URL is set and parses, provider and profile are
    set, MFA is set unless the provider is "Browser", and the prompter
    registry accepts the prompter. *)
Theorem Validate_None_iff `{Externals} (ia : IDPAccount) :
  Validate ia = None <->
  (Provider ia = "OneLogin" -> AppID ia <> "" /\ Subdomain ia <> "") /\
  (Provider ia = "F5APM" -> ResourceID ia <> "") /\
  (Provider ia = "AzureAD" -> AppID ia <> "") /\
  URL ia <> "" /\
  url_Parse (URL ia) = None /\
  Provider ia <> "" /\
  (Provider ia <> "Browser" -> MFA ia <> "") /\
  Profile ia <> "" /\
  ValidateAndSetPrompter (Prompter ia) = None.
Proof.
  rewrite <- !and_assoc, (and_assoc (_ -> _ /\ _)), <- Validate_switch_None_iff,
    !and_assoc.
  unfold Validate.
  destruct (Validate_switch ia) as [e|].
  { split; [discriminate | intros [Hs _]; discriminate]. }
  rewrite if_empty_None_iff.
  destruct (url_Parse (URL ia)) as [e|].
  { split; [intros [_ Hd]; discriminate | intros (_ & _ & Hd & _); discriminate]. }
  rewrite if_empty_None_iff.
  destruct (String.eqb_spec (Provider ia) "Browser") as [Eb|Eb]; cbn [negb andb].
  - rewrite if_empty_None_iff.
    destruct (ValidateAndSetPrompter (Prompter ia)) as [e|].
    + split; [intros (_ & _ & _ & Hd); discriminate
             | intros (_ & _ & _ & _ & _ & _ & Hd); discriminate].
    + split; [intros (Hu & Hp & Hf & _) | intros (_ & Hu & _ & Hp & _ & Hf & _)];
        repeat split; auto.
  - rewrite !if_empty_None_iff.
    destruct (ValidateAndSetPrompter (Prompter ia)) as [e|].
    + split; [intros (_ & _ & _ & _ & Hd); discriminate
             | intros (_ & _ & _ & _ & _ & _ & Hd); discriminate].
    + split; [intros (Hu & Hp & Hm & Hf & _)
             | intros (_ & Hu & _ & Hp & Hm & Hf & _)]; repeat split; auto.
Qed.

(** * Further properties of saving and loading *)

Lemma LoadSources_has_default {T : IniText} (opts : LoadOptions) (d : disk)
    (f : ini.File) :
  LoadSources opts d = Ok f ->
  exists ks, ini.find_section f ini.DefaultSection = Some ks.
Proof.
  unfold LoadSources. destruct (file d) as [t|].
  - destruct (parse opts t) as [f0|msg]; [|discriminate].
    intro Hl. injection Hl as <-. unfold ini.with_default.
    destruct (ini.find_section f0 ini.DefaultSection) as [ks|] eqn:E.
    + now exists ks.
    + exists []. cbn [ini.find_section]. rewrite String.eqb_refl. reflexivity.
  - destruct (Loose opts); [|discriminate].
    intro Hl. injection Hl as <-. now exists [].
Qed.

(** X2. [SaveIDPAccount] returns no error exactly when the record passes
    validation, the file loads, the profile name is not empty and the
    write goes through; when it returns an error and the write itself was
    not what failed, the disk is as it was. *)
Theorem SaveIDPAccount_succeeds_iff `{Externals} {T : IniText} (d : disk)
    (P : string) (account : IDPAccount) :
  (snd (SaveIDPAccount d P account) = None <->
   Validate account = None /\
   (exists cfg, LoadSources save_options d = Ok cfg) /\
   P <> "" /\ write_failure d = None) /\
  (write_failure d = None ->
   snd (SaveIDPAccount d P account) <> None ->
   fst (SaveIDPAccount d P account) = d).
Proof.
  unfold SaveIDPAccount, SaveTo, ini.NewSection.
  destruct (Validate account) as [e|].
  { split; [split; [discriminate | intros [Hd _]; discriminate] | reflexivity]. }
  destruct (LoadSources save_options d) as [cfg|e].
  2:{ split; [split; [discriminate|] | reflexivity].
      intros (_ & [cfg Hd] & _). discriminate. }
  destruct (String.eqb_spec P "") as [E|E].
  { split; [split; [discriminate|] | reflexivity].
    intros (_ & _ & Hd & _). contradiction. }
  assert (Hnew : exists cfg',
             match ini.find_section cfg P with
             | Some _ => Ok cfg
             | None => Ok (cfg ++ [(P, [])])%list
             end = Ok cfg').
  { destruct (ini.find_section cfg P); eexists; reflexivity. }
  destruct Hnew as [cfg' ->].
  destruct (write_failure d) as [msg|].
  - split; [split; [discriminate|] | discriminate].
    intros (_ & _ & _ & Hd). discriminate.
  - cbn [snd fst]. split; [|intros _ Hc; contradiction].
    split; [|reflexivity]. intros _. repeat split; [now exists cfg | exact E].
Qed.

(** X3. [LoadIDPAccount] returns an error exactly when the file does not
    load; the error is then the one of the ini library, wrapped with
    "Unable to load configuration file". Otherwise it returns a record
    that carries the requested name. *)
Theorem LoadIDPAccount_error_iff {T : IniText} (d : disk) (P : string) :
  (forall err, LoadIDPAccount d P = Err err <->
               exists msg, LoadSources load_options d = Err (external msg) /\
                 err = errors_Wrap (external msg)
                         "Unable to load configuration file") /\
  (forall account, LoadIDPAccount d P = Ok account -> Name account = P).
Proof.
  split.
  - intro err. split; [apply LoadIDPAccount_Err|].
    intros (msg & Hd & ->). unfold LoadIDPAccount.
    rewrite Hd. reflexivity.
  - intros account. unfold LoadIDPAccount.
    destruct (LoadSources load_options d) as [cfg|e]; [|discriminate].
    destruct (readAccount_Ok P cfg) as [a ->].
    intro Ha. injection Ha as <-. reflexivity.
Qed.

Lemma LoadIDPAccount_error_iff_witness :
  LoadIDPAccount unreadable_disk "team" =
    Err (errors_Wrap (external "unclosed section: [team")
           "Unable to load configuration file") /\
  Name (set_Name "team" okta_account) = "team".
Proof.
  split.
  - apply (proj1 (LoadIDPAccount_error_iff unreadable_disk "team")).
    exists "unclosed section: [team". split; reflexivity.
  - apply (proj2 (LoadIDPAccount_error_iff team_disk "team")).
    vm_compute. reflexivity.
Defined.

(** X4. The empty profile name stands for the default section: loading
    the profile "" gives the record of the profile "DEFAULT", apart from
    the name. A save under the empty name is refused, whatever the
    record. *)
Theorem empty_profile_name_is_default_section `{Externals} {T : IniText}
    (d : disk) (account : IDPAccount) :
  LoadIDPAccount d "" =
    match LoadIDPAccount d "DEFAULT" with
    | Ok a => Ok (set_Name "" a)
    | Err e => Err e
    end /\
  snd (SaveIDPAccount d "" account) <> None.
Proof.
  split.
  - unfold LoadIDPAccount.
    destruct (LoadSources load_options d) as [cfg|e] eqn:Hl; [|reflexivity].
    destruct (LoadSources_has_default _ d cfg Hl) as [ks Hks].
    unfold readAccount, ini.File_Section, ini.GetSection.
    change (ini.canonical "") with ini.DefaultSection.
    change (ini.canonical "DEFAULT") with ini.DefaultSection.
    rewrite Hks. reflexivity.
  - unfold SaveIDPAccount.
    destruct (Validate account); [discriminate|].
    destruct (LoadSources save_options d); discriminate.
Qed.

(** * What a save keeps *)

Module keep_facts.
Import ini.

(** One field removes no key, and changes no value but under its own key
    when it is written. *)
Lemma reflect_field_keeps_key (f : File) (P n k v : string) (ks : Keys)
    (k1 : string) (om : bool) (v1 : value) :
  find_section f n = Some ks -> lookup k ks = Some v ->
  exists ks' v',
    find_section (reflect_field P f (k1, om, v1)) n = Some ks' /\
    lookup k ks' = Some v' /\
    (negb (k1 =? k) || (om && isEmptyValue v1) = true -> v' = v).
Proof.
  intros Hn Hk.
  destruct (String.eqb_spec k1 k) as [E|E]; cbn [negb orb].
  - subst k1. unfold reflect_field.
    destruct (om && isEmptyValue v1).
    { exists ks, v. repeat split; assumption. }
    destruct (GetKey f P k) as [[o old]|].
    + unfold SetValue. rewrite find_section_update, Hn.
      destruct (o =? n); cbn [option_map].
      * eexists. eexists. split; [reflexivity|].
        rewrite lookup_set_value_same, Hk. split; [reflexivity|]. discriminate.
      * exists ks, v. repeat split; assumption.
    + unfold SetValue, NewKey. rewrite update_section_twice, find_section_update, Hn.
      destruct (P =? n); cbn [option_map].
      * eexists. eexists. split; [reflexivity|].
        rewrite lookup_set_value_same, Hk, lookup_set_value_same, Hk.
        split; [reflexivity|]. discriminate.
      * exists ks, v. repeat split; assumption.
  - assert (E' : k <> fst (fst (k1, om, v1))) by (cbn [fst]; now apply not_eq_sym).
    pose proof (reflect_field_other_key f P k (k1, om, v1) n E') as Hother.
    rewrite Hn in Hother. cbn [option_map] in Hother. rewrite Hk in Hother.
    destruct (find_section (reflect_field P f (k1, om, v1)) n) as [ks'|];
      [|discriminate].
    cbn [option_map] in Hother. injection Hother as Hl.
    exists ks', v. repeat split. exact Hl.
Qed.

Lemma ReflectFrom_keeps_key (fields : list (string * bool * value))
    (f : File) (P n k v : string) (ks : Keys) :
  find_section f n = Some ks -> lookup k ks = Some v ->
  exists ks' v',
    find_section (ReflectFrom f P fields) n = Some ks' /\
    lookup k ks' = Some v' /\
    (not_written k fields = true -> v' = v).
Proof.
  revert f ks v. induction fields as [|[[k1 om] v1] fields IH]; intros f ks v Hn Hk.
  - exists ks, v. repeat split; assumption.
  - rewrite ReflectFrom_cons.
    destruct (reflect_field_keeps_key f P n k v ks k1 om v1 Hn Hk)
      as (ks1 & w1 & Hn1 & Hk1 & Hv1).
    destruct (IH _ ks1 w1 Hn1 Hk1) as (ks2 & w2 & Hn2 & Hk2 & Hv2).
    exists ks2, w2. repeat split; [exact Hn2 | exact Hk2 |].
    unfold not_written. cbn [forallb]. intro Hnot.
    apply andb_prop in Hnot. destruct Hnot as [Hhd Htl].
    rewrite (Hv2 Htl). exact (Hv1 Hhd).
Qed.

Lemma find_section_NewSection (f f' : File) (P n : string) (ks : Keys) :
  NewSection f P = Ok f' -> find_section f n = Some ks ->
  find_section f' n = Some ks.
Proof.
  unfold NewSection. destruct (P =? ""); [discriminate|].
  destruct (find_section f P); intros Hf Hn; injection Hf as <-; [exact Hn|].
  rewrite find_section_app, Hn. reflexivity.
Qed.

End keep_facts.
Import keep_facts.

(** X5. A save that succeeds drops nothing of what its own load of the
    file returned: every section is in what it hands to the writer, with
    every key it had, and a key keeps its value unless a field with that
    tag name is written (a key that is not a tag of the record, or the
    key of an [omitempty] field that is empty, stays as it was). *)
Theorem SaveIDPAccount_keeps_keys `{Externals} {T : IniText} (d d' : disk)
    (cfg : ini.File) (P n k v : string) (ks : ini.Keys) (account : IDPAccount) :
  LoadSources save_options d = Ok cfg ->
  ini.find_section cfg n = Some ks ->
  ini.lookup k ks = Some v ->
  SaveIDPAccount d P account = (d', None) ->
  d' = written (saved_sections cfg P account) /\
  exists ks' v',
    ini.find_section (saved_sections cfg P account) n = Some ks' /\
    ini.lookup k ks' = Some v' /\
    (not_written k (struct_fields account) = true -> v' = v).
Proof.
  intros Hd Hn Hk Hsave.
  destruct (SaveIDPAccount_success _ _ _ _ Hsave)
    as (_ & cfg0 & cfg' & Hload & Hnew & _ & Heq & ->).
  rewrite Hd in Hload. injection Hload as <-.
  split; [reflexivity|]. rewrite Heq.
  apply ReflectFrom_keeps_key with (ks := ks); [|exact Hk].
  apply (find_section_NewSection _ _ _ _ _ Hnew). exact Hn.
Qed.

Lemma SaveIDPAccount_keeps_keys_witness :
  fst (SaveIDPAccount (H := sample_externals) browser_disk "dev" okta_account)
    = written (saved_sections browser_file "dev" okta_account) /\
  exists ks' v',
    ini.find_section (saved_sections browser_file "dev" okta_account) "dev"
      = Some ks' /\
    ini.lookup "browser_type" ks' = Some v' /\
    (not_written "browser_type" (struct_fields okta_account) = true ->
     v' = "chrome").
Proof.
  apply (SaveIDPAccount_keeps_keys (H := sample_externals) browser_disk _
           browser_file "dev" "dev" "browser_type" "chrome"
           [("browser_type", "chrome"); ("note", "by hand")] okta_account);
    vm_compute; reflexivity.
Defined.

(** * Saving twice *)

Module settle_facts.
Import ini.

Lemma set_value_same_value (k v : string) (ks : Keys) :
  lookup k ks = Some v -> set_value k v ks = ks.
Proof.
  induction ks as [|[k1 v1] ks IH]; cbn [lookup set_value]; [reflexivity|].
  destruct (k1 =? k).
  - intro Hv. injection Hv as <-. reflexivity.
  - intro Hv. rewrite (IH Hv). reflexivity.
Qed.

Lemma update_section_fixed (f : File) (n : string) (g : Keys -> Keys) (ks : Keys) :
  find_section f n = Some ks -> g ks = ks -> update_section f n g = f.
Proof.
  induction f as [|[n1 ks1] f IH]; cbn [find_section update_section]; [reflexivity|].
  destruct (n1 =? n).
  - intros Hf Hg. injection Hf as <-. rewrite Hg. reflexivity.
  - intros Hf Hg. rewrite (IH Hf Hg). reflexivity.
Qed.

(** A field whose text is already what a lookup finds changes nothing. *)
Lemma reflect_field_settled (f : File) (P k o : string) (om : bool) (v : value) :
  GetKey f P k = Some (o, render v) -> reflect_field P f (k, om, v) = f.
Proof.
  intro Hg. unfold reflect_field.
  destruct (om && isEmptyValue v); [reflexivity|]. rewrite Hg.
  destruct (GetKey_owner _ _ _ _ _ Hg) as (_ & ks & Hks & Hl).
  unfold SetValue. apply update_section_fixed with (ks := ks); [exact Hks|].
  now apply set_value_same_value.
Qed.

Lemma ReflectFrom_settled (fields : list (string * bool * value))
    (f : File) (P : string) :
  settled f P fields -> ReflectFrom f P fields = f.
Proof.
  induction fields as [|[[k om] v] fields IH]; intro Hs; [reflexivity|].
  rewrite ReflectFrom_cons.
  assert (Hstep : reflect_field P f (k, om, v) = f).
  { unfold reflect_field. destruct (om && isEmptyValue v) eqn:E; [reflexivity|].
    destruct (Hs k om v (or_introl eq_refl) E) as [o Ho].
    pose proof (reflect_field_settled f P k o om v Ho) as Hr.
    unfold reflect_field in Hr. rewrite E in Hr. exact Hr. }
  rewrite Hstep. apply IH.
  intros k' om' v' Hin. apply Hs. now right.
Qed.

(** A field that is written: its text is under its key afterwards, for
    any [omitempty] option. *)
Lemma GetKey_reflect_field_written (f : File) (P k : string) (om : bool)
    (v : value) (ks : Keys) :
  om && isEmptyValue v = false ->
  P <> "" -> find_section f P = Some ks ->
  exists o, GetKey (reflect_field P f (k, om, v)) P k = Some (o, render v).
Proof.
  intros Hw HP Hf.
  destruct (GetKey_reflect_field_same f P k v ks HP Hf) as [o Ho].
  exists o. unfold reflect_field in *. rewrite Hw. exact Ho.
Qed.

Lemma distinct_cons (k : string) (l : list string) :
  distinct (k :: l) = true -> ~ In k l /\ distinct l = true.
Proof.
  cbn [distinct]. intro H. apply andb_prop in H. destruct H as [Hk Hd].
  apply negb_true_iff in Hk. split; [now apply existsb_eqb_false | exact Hd].
Qed.

Lemma not_in_tags_Forall (k : string) (fields : list (string * bool * value)) :
  ~ In k (tags fields) -> Forall (fun fld => k <> fst (fst fld)) fields.
Proof.
  induction fields as [|fld fields IH]; intro Hn; constructor.
  - intro Hc. apply Hn. left. now symmetry.
  - apply IH. intro Hc. apply Hn. now right.
Qed.

Lemma reflect_field_section_stays (f : File) (P n : string)
    (fld : string * bool * value) (ks : Keys) :
  find_section f n = Some ks ->
  exists ks', find_section (reflect_field P f fld) n = Some ks'.
Proof.
  intro Hn.
  destruct (find_section (reflect_field P f fld) n) as [ks'|] eqn:E;
    [now exists ks'|].
  exfalso. apply (reflect_field_keeps_sections f P n fld); [congruence | exact E].
Qed.

(** After [ReflectFrom], a lookup finds the text of every field that was
    written. *)
Lemma GetKey_ReflectFrom_field (fields : list (string * bool * value))
    (f : File) (P k : string) (om : bool) (v : value) (ks : Keys) :
  distinct (tags fields) = true ->
  field_of k fields = Some (om, v) ->
  om && isEmptyValue v = false ->
  P <> "" -> find_section f P = Some ks ->
  exists o, GetKey (ReflectFrom f P fields) P k = Some (o, render v).
Proof.
  revert f ks. induction fields as [|[[k1 om1] v1] fields IH];
    intros f ks Hd Hk Hw HP Hf; [discriminate|].
  cbn [tags map fst] in Hd. apply distinct_cons in Hd. destruct Hd as [Hk1 Hd].
  cbn [field_of] in Hk. rewrite ReflectFrom_cons.
  destruct (String.eqb_spec k1 k) as [E|E].
  - injection Hk as <- <-. subst k1.
    rewrite GetKey_ReflectFrom_other by now apply not_in_tags_Forall.
    now apply GetKey_reflect_field_written with (ks := ks).
  - destruct (reflect_field_section_stays f P P (k1, om1, v1) ks Hf) as [ks' Hf'].
    now apply IH with (ks := ks').
Qed.

Lemma field_of_In (fields : list (string * bool * value)) (k : string)
    (om : bool) (v : value) :
  distinct (tags fields) = true -> In (k, om, v) fields ->
  field_of k fields = Some (om, v).
Proof.
  induction fields as [|[[k1 om1] v1] fields IH]; intros Hd Hin; [contradiction|].
  cbn [tags map fst] in Hd. apply distinct_cons in Hd. destruct Hd as [Hk1 Hd].
  cbn [field_of]. destruct Hin as [Hin|Hin].
  - injection Hin as -> -> ->. rewrite String.eqb_refl. reflexivity.
  - destruct (String.eqb_spec k1 k) as [E|E]; [|now apply IH].
    exfalso. apply Hk1. subst k1.
    exact (in_map (fun fld => fst (fst fld)) fields (k, om, v) Hin).
Qed.

Lemma settled_after_ReflectFrom (fields : list (string * bool * value))
    (f : File) (P : string) (ks : Keys) :
  distinct (tags fields) = true -> P <> "" -> find_section f P = Some ks ->
  settled (ReflectFrom f P fields) P fields.
Proof.
  intros Hd HP Hf k om v Hin Hw.
  apply GetKey_ReflectFrom_field with (om := om) (ks := ks); try assumption.
  now apply field_of_In.
Qed.

Lemma ReflectFrom_section_stays (fields : list (string * bool * value))
    (f : File) (P n : string) (ks : Keys) :
  find_section f n = Some ks ->
  exists ks', find_section (ReflectFrom f P fields) n = Some ks'.
Proof.
  revert f ks. induction fields as [|fld fields IH]; intros f ks Hn.
  - now exists ks.
  - rewrite ReflectFrom_cons.
    destruct (reflect_field_section_stays f P n fld ks Hn) as [ks1 Hn1].
    now apply IH with (ks := ks1).
Qed.

End settle_facts.
Import settle_facts.

(** X6. Saving twice is saving once, when the text of the first save
    parses back, under the options of the save, to the sections that
    were written: saving the same record under the same profile name
    again succeeds and writes the same text. *)
Theorem SaveIDPAccount_idempotent `{Externals} {T : IniText} (d d1 : disk)
    (cfg : ini.File) (P : string) (account : IDPAccount) :
  SaveIDPAccount d P account = (d1, None) ->
  LoadSources save_options d = Ok cfg ->
  reads_back save_options (saved_sections cfg P account) ->
  SaveIDPAccount d1 P account = (d1, None).
Proof.
  intros Hsave Hd.
  destruct (SaveIDPAccount_success _ _ _ _ Hsave)
    as (Hv & cfg0 & cfg' & Hload & Hnew & _ & Heq & ->).
  rewrite Hd in Hload. injection Hload as <-.
  rewrite Heq.
  destruct (NewSection_inv _ _ _ Hnew) as (HP & [ks0 Hks0] & _).
  destruct (LoadSources_has_default _ d cfg Hd) as [ksd Hksd].
  pose proof (keep_facts.find_section_NewSection _ _ _ _ _ Hnew Hksd) as Hksd'.
  set (f1 := ini.ReflectFrom cfg' P (struct_fields account)).
  destruct (ReflectFrom_section_stays (struct_fields account) cfg' P _ _ Hksd')
    as [ksd1 Hd1].
  destruct (ReflectFrom_section_stays (struct_fields account) cfg' P _ _ Hks0)
    as [ks1 HP1].
  fold f1 in Hd1, HP1.
  intro Hback.
  rewrite (SaveIDPAccount_writes (written f1) f1 P account Hv
             (LoadSources_written save_options f1 ksd1 Hback Hd1) eq_refl HP).
  unfold saved_sections, ini.NewSection. rewrite (eqb_empty_false _ HP), HP1.
  rewrite (ReflectFrom_settled (struct_fields account) f1 P).
  - reflexivity.
  - unfold f1. apply settled_after_ReflectFrom with (ks := ks0);
      [apply distinct_struct_fields | exact HP | exact Hks0].
Qed.

Lemma SaveIDPAccount_idempotent_witness :
  SaveIDPAccount (H := sample_externals) team_disk "team" okta_account
    = (team_disk, None).
Proof.
  apply (SaveIDPAccount_idempotent (H := sample_externals) empty_disk team_disk
           ini.Empty "team" okta_account).
  - vm_compute. reflexivity.
  - reflexivity.
  - reflexivity.
Defined.

(** * Save, then load, on any file *)

Section WrittenFields.

Variables (P : string) (a : IDPAccount) (f1 : ini.File).
Hypothesis Hfound :
  forall k om v,
    field_of k (struct_fields a) = Some (om, v) ->
    om && ini.isEmptyValue v = false ->
    exists o, ini.GetKey f1 P k = Some (o, ini.render v).

Lemma mapString_found (k : string) (om : bool) (v cur : string) :
  field_of k (struct_fields a) = Some (om, ini.VString v) ->
  om && (v =? "") = false ->
  no_reference v = true ->
  ini.mapString f1 P k cur = if v =? "" then cur else v.
Proof.
  intros Hk Hw Hv. destruct (Hfound k om (ini.VString v) Hk Hw) as [o Ho].
  unfold ini.mapString, ini.Key_String. rewrite Ho. cbn [ini.render].
  rewrite (transformValue_no_reference _ _ _ _ Hv). reflexivity.
Qed.

Lemma mapBool_found (k : string) (om b cur : bool) :
  field_of k (struct_fields a) = Some (om, ini.VBool b) ->
  om && negb b = false ->
  ini.mapBool f1 P k cur = b.
Proof.
  intros Hk Hw. destruct (Hfound k om (ini.VBool b) Hk Hw) as [o Ho].
  unfold ini.mapBool, ini.Key_String. rewrite Ho. cbn [ini.render].
  rewrite (transformValue_no_percent _ _ _ _ (FormatBool_no_percent b)).
  rewrite parseBool_FormatBool. reflexivity.
Qed.

Lemma mapInt_found (k : string) (z cur : Z) :
  field_of k (struct_fields a) = Some (false, ini.VInt z) ->
  in_int64 z ->
  ini.mapInt f1 P k cur = z.
Proof.
  intros Hk Hz. destruct (Hfound k false (ini.VInt z) Hk eq_refl) as [o Ho].
  unfold ini.mapInt, ini.Key_String. rewrite Ho. cbn [ini.render].
  rewrite (transformValue_no_percent _ _ _ _ (FormatInt_no_percent z)).
  rewrite (ParseInt_FormatInt z Hz). reflexivity.
Qed.

Ltac in_strings := repeat (first [left; reflexivity | right]).

(** The record mapped from the section, field by field. *)
Lemma MapTo_written :
  no_references a = true -> ints_in_range a -> Profile a <> "" ->
  saved_fields_loaded a (MapTo f1 P NewIDPAccount).
Proof.
  intros Href [Ht Hs] Hprof.
  unfold no_references in Href. rewrite forallb_forall in Href.
  assert (Hstr : forall k v cur,
             field_of k (struct_fields a) = Some (false, ini.VString v) ->
             In v (loaded_strings a) ->
             ini.mapString f1 P k cur = if v =? "" then cur else v).
  { intros k v cur Hk Hin.
    apply (mapString_found k false v cur Hk eq_refl). now apply Href. }
  assert (Hopt : forall k v cur,
             field_of k (struct_fields a) = Some (true, ini.VString v) ->
             In v (loaded_strings a) -> v <> "" ->
             ini.mapString f1 P k cur = v).
  { intros k v cur Hk Hin Hne.
    rewrite (mapString_found k true v cur Hk);
      [now rewrite (eqb_empty_false _ Hne)
      | cbn [andb]; now apply eqb_empty_false
      | now apply Href]. }
  unfold saved_fields_loaded, MapTo, loaded_strings in *.
  cbn [Name AppID URL Username Provider BrowserType BrowserExecutablePath
       BrowserAutoFill MFA MFAIPAddress SkipVerify Timeout
       AmazonWebservicesURN SessionDuration Profile ResourceID Subdomain
       RoleARN PolicyFile PolicyARNs Region HttpAttemptsCount HttpRetryDelay
       CredentialsFile SAMLCache SAMLCacheFile TargetURL
       DisableRememberDevice DisableSessions DownloadBrowser
       BrowserDriverDir Headless Prompter KCAuthErrorMessage
       KCAuthErrorElement KCBroker NewIDPAccount].
  rewrite (Hstr "aws_urn" (AmazonWebservicesURN a) _ eq_refl) by in_strings.
  rewrite (Hstr "aws_profile" (Profile a) _ eq_refl) by in_strings.
  rewrite (eqb_empty_false _ Hprof).
  rewrite (mapInt_found "timeout" (Timeout a) _ eq_refl Ht).
  rewrite (mapInt_found "aws_session_duration" (SessionDuration a) _ eq_refl Hs).
  repeat match goal with
         | |- _ /\ _ => split
         | |- ini.mapString _ _ ?k _ = ?v =>
             rewrite (Hstr k v _ eq_refl) by in_strings; apply if_empty_same
         | |- ini.mapBool _ _ ?k _ = ?b =>
             apply (mapBool_found k false b _ eq_refl eq_refl)
         | |- ?v <> "" -> ini.mapString _ _ ?k _ = ?v =>
             intro Hne; apply (Hopt k v _ eq_refl); [in_strings | exact Hne]
         | |- ?b = true -> ini.mapBool _ _ ?k _ = true =>
             intro Hb;
             rewrite (mapBool_found k true b _ eq_refl); [exact Hb|];
             rewrite Hb; reflexivity
         | |- ?x = ?x => reflexivity
         end.
Qed.

End WrittenFields.

Lemma saved_fields_loaded_set_Name (a l : IDPAccount) (n : string) :
  saved_fields_loaded a l -> saved_fields_loaded a (set_Name n l).
Proof. destruct l. exact (fun H => H). Qed.

(** [Validate] reads eight fields. *)
Lemma Validate_same_fields `{Externals} (a b : IDPAccount) :
  Provider a = Provider b -> AppID a = AppID b -> Subdomain a = Subdomain b ->
  ResourceID a = ResourceID b -> URL a = URL b -> MFA a = MFA b ->
  Profile a = Profile b -> Prompter a = Prompter b ->
  Validate a = Validate b.
Proof.
  intros Hp Ha Hs Hr Hu Hm Hf Hq. unfold Validate, Validate_switch.
  rewrite Hp, Ha, Hs, Hr, Hu, Hm, Hf, Hq. reflexivity.
Qed.

(** A save on a file that loads, followed by a load of the same profile,
    when the text written parses back as the load reads it. *)
Lemma save_then_load `{Externals} {T : IniText} (d : disk) (cfg : ini.File)
    (P : string) (account : IDPAccount) :
  Validate account = None ->
  LoadSources save_options d = Ok cfg ->
  write_failure d = None ->
  P <> "" ->
  no_references account = true ->
  ints_in_range account ->
  reads_back load_options (saved_sections cfg P account) ->
  exists d' f1,
    SaveIDPAccount d P account = (d', None) /\
    LoadIDPAccount d' P = Ok (set_Name P (MapTo f1 P NewIDPAccount)) /\
    saved_fields_loaded account (MapTo f1 P NewIDPAccount).
Proof.
  intros Hv Hload Hw HP Href Hints Hback.
  pose proof (SaveIDPAccount_writes d cfg P account Hv Hload Hw HP) as Hsave.
  revert Hsave Hback. unfold saved_sections.
  destruct (LoadSources_has_default _ d cfg Hload) as [ksd Hksd].
  destruct (NewSection_saved cfg P HP) as (cfg' & ks0 & Hnew & Hks0).
  rewrite Hnew.
  pose proof (find_section_NewSection _ _ _ _ _ Hnew Hksd) as Hksd'.
  set (f1 := ini.ReflectFrom cfg' P (struct_fields account)).
  destruct (ReflectFrom_section_stays (struct_fields account) cfg' P _ _ Hksd')
    as [ksd1 Hd1].
  destruct (ReflectFrom_section_stays (struct_fields account) cfg' P _ _ Hks0)
    as [ks1 HP1].
  fold f1 in Hd1, HP1.
  intros Hsave Hback.
  exists (written f1), f1. split; [exact Hsave|]. split.
  - unfold LoadIDPAccount.
    rewrite (LoadSources_written load_options f1 ksd1 Hback Hd1).
    unfold readAccount. rewrite (File_Section_present f1 P ks1 HP HP1).
    reflexivity.
  - apply MapTo_written; [|exact Href | exact Hints
                          | exact (Validate_None_Profile account Hv)].
    intros k om v Hk Hwr. unfold f1.
    apply GetKey_ReflectFrom_field with (om := om) (ks := ks0);
      [apply distinct_struct_fields | exact Hk | exact Hwr | exact HP | exact Hks0].
Qed.

(** X7. On any file that loads, a record that passes validation and is
    saved under a profile name that is not empty comes back from a load of
    that profile with the name of the profile and with every field that
    is always written as it was saved (the default for an empty
    federation URN); an [omitempty] field comes back as saved when it was
    not empty. The string fields hold no reference "%(key)s", the int
    fields are in the range of a Go int, and the text written parses
    back, under the options of the load, to the sections that were
    written. *)
Theorem SaveIDPAccount_LoadIDPAccount_any_file `{Externals} {T : IniText}
    (d : disk) (cfg : ini.File) (P : string) (account : IDPAccount) :
  Validate account = None ->
  LoadSources save_options d = Ok cfg ->
  write_failure d = None ->
  P <> "" ->
  no_references account = true ->
  ints_in_range account ->
  reads_back load_options (saved_sections cfg P account) ->
  exists d' loaded,
    SaveIDPAccount d P account = (d', None) /\
    LoadIDPAccount d' P = Ok loaded /\
    Name loaded = P /\
    saved_fields_loaded account loaded.
Proof.
  intros Hv Hload Hw HP Href Hints Hback.
  destruct (save_then_load d cfg P account Hv Hload Hw HP Href Hints Hback)
    as (d' & f1 & Hsave & Hl & Hfields).
  exists d', (set_Name P (MapTo f1 P NewIDPAccount)).
  split; [exact Hsave|]. split; [exact Hl|]. split; [reflexivity|].
  now apply saved_fields_loaded_set_Name.
Qed.

Lemma SaveIDPAccount_LoadIDPAccount_any_file_witness :
  exists d' loaded,
    SaveIDPAccount (H := sample_externals) team_disk "team" other_account
      = (d', None) /\
    LoadIDPAccount d' "team" = Ok loaded /\
    Name loaded = "team" /\
    saved_fields_loaded other_account loaded.
Proof.
  apply (SaveIDPAccount_LoadIDPAccount_any_file (H := sample_externals)
           team_disk team_file "team" other_account).
  - vm_compute. reflexivity.
  - vm_compute. reflexivity.
  - reflexivity.
  - discriminate.
  - vm_compute. reflexivity.
  - unfold ints_in_range, in_int64. vm_compute. repeat split; discriminate.
  - reflexivity.
Defined.

(** X8. What was saved can be loaded and saved again: under the same
    conditions the record that comes back from the load passes
    validation. *)
Theorem loaded_after_save_is_valid `{Externals} {T : IniText}
    (d : disk) (cfg : ini.File) (P : string) (account : IDPAccount) :
  Validate account = None ->
  LoadSources save_options d = Ok cfg ->
  write_failure d = None ->
  P <> "" ->
  no_references account = true ->
  ints_in_range account ->
  reads_back load_options (saved_sections cfg P account) ->
  exists d' loaded,
    SaveIDPAccount d P account = (d', None) /\
    LoadIDPAccount d' P = Ok loaded /\
    Validate loaded = None.
Proof.
  intros Hv Hload Hw HP Href Hints Hback.
  destruct (save_then_load d cfg P account Hv Hload Hw HP Href Hints Hback)
    as (d' & f1 & Hsave & Hl & Hfields).
  exists d', (set_Name P (MapTo f1 P NewIDPAccount)).
  split; [exact Hsave|]. split; [exact Hl|].
  rewrite <- Hv.
  apply (saved_fields_loaded_set_Name _ _ P) in Hfields.
  revert Hfields. generalize (set_Name P (MapTo f1 P NewIDPAccount)) as l.
  intros l Hfields. unfold saved_fields_loaded in Hfields.
  apply Validate_same_fields; intuition congruence.
Qed.

Lemma loaded_after_save_is_valid_witness :
  exists d' loaded,
    SaveIDPAccount (H := sample_externals) team_disk "team" other_account
      = (d', None) /\
    LoadIDPAccount d' "team" = Ok loaded /\
    Validate (H := sample_externals) loaded = None.
Proof.
  apply (loaded_after_save_is_valid (H := sample_externals)
           team_disk team_file "team" other_account).
  - vm_compute. reflexivity.
  - vm_compute. reflexivity.
  - reflexivity.
  - discriminate.
  - vm_compute. reflexivity.
  - unfold ints_in_range, in_int64. vm_compute. repeat split; discriminate.
  - reflexivity.
Defined.

(** * Loading one profile after saving another *)

Module frame_facts.
Import ini.

(** The parents of a section name: its prefixes that end before a ".". *)
Lemma dot_prefixes_spec (s q : string) :
  In q (dot_prefixes s) <-> exists r, s = q ++ String "." r.
Proof.
  revert q. induction s as [|c s IH]; intro q; cbn [dot_prefixes].
  - split; [contradiction|]. intros [r Hr]. destruct q; discriminate.
  - split.
    + intro Hin.
      assert (Hcase : (q = "" /\ c = "."%char) \/
                      In q (map (String c) (dot_prefixes s))).
      { destruct (Ascii.eqb_spec c "."); [|now right].
        destruct Hin as [<-|Hin]; [left; now split | now right]. }
      destruct Hcase as [[-> ->]|Hmap].
      * now exists s.
      * apply in_map_iff in Hmap. destruct Hmap as (q' & <- & Hq').
        apply IH in Hq'. destruct Hq' as [r ->]. now exists r.
    + intros [r Hr]. destruct q as [|c' q'].
      * cbn [append] in Hr. injection Hr as -> ->.
        rewrite Ascii.eqb_refl. now left.
      * cbn [append] in Hr. injection Hr as <- ->.
        assert (Hq' : In q' (dot_prefixes (q' ++ String "." r))).
        { apply IH. now exists r. }
        apply (in_map (String c)) in Hq'.
        destruct (Ascii.eqb c "."); [now right | exact Hq'].
Qed.

Lemma append_assoc (a b c : string) : (a ++ b) ++ c = a ++ (b ++ c).
Proof. induction a as [|x a IH]; cbn [append]; [reflexivity | now rewrite IH]. Qed.

Lemma parents_of_parent (s q : string) :
  In q (parents s) -> incl (parents q) (parents s).
Proof.
  unfold parents. intros Hq p Hp.
  rewrite <- in_rev in Hq. rewrite <- in_rev in Hp. rewrite <- in_rev.
  apply dot_prefixes_spec in Hq. apply dot_prefixes_spec in Hp.
  destruct Hq as [r ->]. destruct Hp as [r' ->].
  apply dot_prefixes_spec. exists (r' ++ String "." r).
  rewrite append_assoc. reflexivity.
Qed.

(** Two files with the same sections under the names a lookup tries
    answer it alike. *)
Lemma first_with_key_agree (f f' : File) (names : list string) (k : string) :
  (forall n, In n names ->
             find_section f' (canonical n) = find_section f (canonical n)) ->
  first_with_key f' names k = first_with_key f names k.
Proof.
  induction names as [|n names IH]; intro Hagree; [reflexivity|].
  cbn [first_with_key]. unfold GetSection.
  rewrite (Hagree n (or_introl eq_refl)).
  rewrite IH; [reflexivity|]. intros m Hm. apply Hagree. now right.
Qed.

Lemma GetKey_agree (f f' : File) (sname k : string) :
  (forall n, In n (sname :: parents sname) ->
             find_section f' (canonical n) = find_section f (canonical n)) ->
  GetKey f' sname k = GetKey f sname k.
Proof. apply first_with_key_agree. Qed.

Lemma transform_loop_agree (n : nat) (f f' : File) (owner k val : string) :
  (forall noption, GetKey f' DefaultSection noption = GetKey f DefaultSection noption) ->
  (forall noption, GetKey f' owner noption = GetKey f owner noption) ->
  transform_loop n f' owner k val = transform_loop n f owner k val.
Proof.
  intros Hd Ho. revert val. induction n as [|n IH]; intro val; [reflexivity|].
  cbn [transform_loop]. destruct (find_var val) as [noption|]; [|reflexivity].
  rewrite Hd, Ho.
  destruct (match GetKey f owner noption with
            | Some (o, v) =>
                if (o =? owner) && (noption =? k)
                then match GetKey f DefaultSection noption with
                     | Some (_, v0) => Some v0
                     | None => None
                     end
                else Some v
            | None =>
                match GetKey f DefaultSection noption with
                | Some (_, v0) => Some v0
                | None => None
                end
            end); [apply IH | reflexivity].
Qed.

Lemma transformValue_agree (f f' : File) (owner k val : string) :
  (forall noption, GetKey f' DefaultSection noption = GetKey f DefaultSection noption) ->
  (forall noption, GetKey f' owner noption = GetKey f owner noption) ->
  transformValue f' owner k val = transformValue f owner k val.
Proof.
  intros Hd Ho. unfold transformValue.
  destruct (negb (contains_percent val)); [reflexivity|].
  now apply transform_loop_agree.
Qed.

Lemma Key_String_agree (f f' : File) (B k : string) :
  B <> "" -> agree_for f f' B -> Key_String f' B k = Key_String f B k.
Proof.
  intros HB Hagree. unfold Key_String.
  assert (Hchain : forall n, In n (B :: parents B) ->
             find_section f' (canonical n) = find_section f (canonical n)).
  { intros n Hn. apply Hagree. right. now apply in_map. }
  rewrite (GetKey_agree f f' B k Hchain).
  destruct (GetKey f B k) as [[o raw]|] eqn:Eg; [|reflexivity].
  rewrite (transformValue_agree f f' o k raw); [reflexivity| |].
  - intro noption. apply GetKey_agree. intros n [<-|Hn].
    + apply Hagree. now left.
    + change (parents DefaultSection) with (@nil string) in Hn. contradiction.
  - intro noption. apply GetKey_agree. intros n Hn.
    destruct (GetKey_owner _ _ _ _ _ Eg) as (Ho & _).
    apply in_map_iff in Ho. destruct Ho as (q & <- & Hq).
    apply Hagree. right.
    destruct Hn as [<-|Hn].
    + rewrite canonical_idem. now apply in_map.
    + apply in_map. right.
      rewrite parents_canonical in Hn.
      destruct Hq as [<-|Hq]; [exact Hn|].
      now apply (parents_of_parent B q Hq).
Qed.

Lemma agree_for_canonical (f f' : File) (B : string) :
  (forall n, In n (DefaultSection :: map canonical (B :: parents B)) ->
             find_section f' n = find_section f n) ->
  agree_for f f' (canonical B).
Proof.
  intros Hagree n Hn. apply Hagree.
  cbn [map In] in *. rewrite canonical_idem, parents_canonical in Hn. exact Hn.
Qed.

Lemma agree_for_app (f f' : File) (B n : string) (ks : Keys) :
  agree_for f f' B -> agree_for (f ++ [(n, ks)])%list (f' ++ [(n, ks)])%list B.
Proof.
  intros Hagree m Hm. rewrite !find_section_app, (Hagree m Hm). reflexivity.
Qed.

Lemma MapTo_agree (f f' : File) (B : string) (a : IDPAccount) :
  B <> "" -> agree_for f f' B -> MapTo f' B a = MapTo f B a.
Proof.
  intros HB Hagree.
  unfold MapTo, mapString, mapBool, mapInt.
  rewrite !(Key_String_agree f f' B _ HB Hagree). reflexivity.
Qed.

(** [readAccount] reads only the default section, the section of the
    profile and its parents. *)
Lemma readAccount_agree (f f' : File) (B : string) :
  (forall n, In n (DefaultSection :: map canonical (B :: parents B)) ->
             find_section f' n = find_section f n) ->
  readAccount B f' = readAccount B f.
Proof.
  intro Hagree. pose proof (agree_for_canonical f f' B Hagree) as Hc.
  unfold readAccount, File_Section, GetSection.
  rewrite (Hagree (canonical B)) by (right; now left).
  destruct (find_section f (canonical B)) as [ks|] eqn:E.
  - rewrite (MapTo_agree f f' _ _ (canonical_not_empty B) Hc). reflexivity.
  - unfold NewSection.
    pose proof (canonical_not_empty B) as Hne. apply String.eqb_neq in Hne.
    rewrite Hne, E, (Hagree (canonical B)) by (right; now left). rewrite E.
    rewrite (MapTo_agree (f ++ [(canonical B, [])])%list (f' ++ [(canonical B, [])])%list _ _
               (canonical_not_empty B) (agree_for_app _ _ _ _ _ Hc)).
    reflexivity.
Qed.

End frame_facts.
Import frame_facts.

(** X9. Saving the profile [A] does not change what a load of the profile
    [B] returns, when the default section, the section [B] and the parent
    sections of [B] are neither [A] nor a parent section of [A]. The file
    is one that the load of the save and the load itself read alike, and
    the text written parses back, under the options of the load, to the
    sections that were written. *)
Theorem LoadIDPAccount_after_other_save `{Externals} {T : IniText} (d d' : disk)
    (cfg : ini.File) (A B : string) (account : IDPAccount) :
  SaveIDPAccount d A account = (d', None) ->
  LoadSources save_options d = Ok cfg ->
  LoadSources load_options d = Ok cfg ->
  reads_back load_options (saved_sections cfg A account) ->
  (forall n, In n (ini.DefaultSection :: lookup_sections B) ->
             ~ In n (lookup_sections A)) ->
  LoadIDPAccount d' B = LoadIDPAccount d B.
Proof.
  intros Hsave Hd Hd2.
  destruct (SaveIDPAccount_success _ _ _ _ Hsave)
    as (_ & cfg0 & cfg' & Hload & Hnew & _ & Heq & ->).
  rewrite Hd in Hload. injection Hload as <-.
  rewrite Heq. intros Hback Hsep.
  destruct (NewSection_inv _ _ _ Hnew) as (HA & _ & Hother).
  destruct (LoadSources_has_default _ d cfg Hd) as [ksd Hksd].
  set (f1 := ini.ReflectFrom cfg' A (struct_fields account)) in *.
  assert (Hagree : forall n, In n (ini.DefaultSection :: lookup_sections B) ->
             ini.find_section f1 n = ini.find_section cfg n).
  { intros n Hn. unfold f1.
    rewrite ReflectFrom_frame; [| exact HA | exact (Hsep n Hn)].
    apply Hother. intros ->. apply (Hsep A Hn).
    unfold lookup_sections. cbn [map]. left. now apply canonical_nonempty. }
  assert (Hd1 : ini.find_section f1 ini.DefaultSection = Some ksd).
  { rewrite Hagree; [exact Hksd | now left]. }
  unfold LoadIDPAccount. rewrite Hd2.
  rewrite (LoadSources_written load_options f1 ksd Hback Hd1).
  rewrite (readAccount_agree cfg f1 B Hagree). reflexivity.
Qed.

Lemma LoadIDPAccount_after_other_save_witness :
  LoadIDPAccount
    (fst (SaveIDPAccount (H := sample_externals) team_disk "dev" other_account))
    "team"
  = LoadIDPAccount team_disk "team".
Proof.
  apply (LoadIDPAccount_after_other_save (H := sample_externals) team_disk _
           team_file "dev" "team" other_account).
  - vm_compute. reflexivity.
  - vm_compute. reflexivity.
  - vm_compute. reflexivity.
  - reflexivity.
  - vm_compute. intros n [<-|[<-|[]]] [Hc|[]]; discriminate Hc.
Defined.

(** X10. A profile that was never configured cannot be saved back as it
    is loaded: for a profile name without a section, and without a parent
    section that holds a key, [LoadIDPAccount] returns the default record
    under the name of the profile, and [SaveIDPAccount] rejects that
    record for its empty URL and leaves the disk as it was. *)
Theorem absent_profile_loads_but_does_not_save `{Externals} {T : IniText}
    (d : disk) (f : ini.File) (P : string) :
  LoadSources load_options d = Ok f ->
  ini.GetSection f P = None ->
  parents_hold_no_key f P = true ->
  LoadIDPAccount d P = Ok (set_Name P NewIDPAccount) /\
  SaveIDPAccount d P (set_Name P NewIDPAccount) =
    (d, Some (errors_Wrap (errors_New "URL empty in idp account")
                "Account validation failed")).
Proof.
  intros Hload Habs Hpar. split.
  - unfold LoadIDPAccount.
    rewrite Hload, (readAccount_absent f P Habs Hpar). reflexivity.
  - reflexivity.
Qed.

Lemma absent_profile_loads_but_does_not_save_witness :
  LoadIDPAccount team_disk "dev" = Ok (set_Name "dev" NewIDPAccount) /\
  SaveIDPAccount (H := sample_externals) team_disk "dev"
      (set_Name "dev" NewIDPAccount) =
    (team_disk,
     Some (errors_Wrap (errors_New "URL empty in idp account")
             "Account validation failed")).
Proof.
  apply (absent_profile_loads_but_does_not_save (H := sample_externals)
           team_disk team_file "dev"); vm_compute; reflexivity.
Defined.

(** * The section written on a fresh file *)

Lemma lookup_written_keys_not_in (k : string)
    (fields : list (string * bool * ini.value)) :
  ~ In k (tags fields) -> ini.lookup k (written_keys fields) = None.
Proof.
  induction fields as [|[[k1 om] v] fields IH]; [reflexivity|].
  cbn [tags map fst In]. intro Hn.
  unfold written_keys. cbn [flat_map]. fold (written_keys fields).
  rewrite lookup_app, IH by tauto.
  destruct (om && ini.isEmptyValue v); [reflexivity|].
  cbn [ini.lookup].
  destruct (String.eqb_spec k1 k); [tauto | reflexivity].
Qed.

(** Starting from keys that have none of the tags, the fields are
    appended one after the other. *)
Lemma fold_reflect_keys_fresh (fields : list (string * bool * ini.value))
    (ks : ini.Keys) :
  distinct (tags fields) = true ->
  (forall k, In k (tags fields) -> ini.lookup k ks = None) ->
  fold_left reflect_keys fields ks = (ks ++ written_keys fields)%list.
Proof.
  revert ks. induction fields as [|[[k1 om] v] fields IH]; intros ks Hd Hfresh.
  - cbn [fold_left written_keys flat_map]. now rewrite app_nil_r.
  - cbn [tags map fst] in Hd. apply distinct_cons in Hd. destruct Hd as [Hk1 Hd].
    cbn [fold_left]. unfold written_keys. cbn [flat_map]. fold (written_keys fields).
    unfold reflect_keys at 2.
    destruct (om && ini.isEmptyValue v).
    + apply IH; [exact Hd|]. intros k Hk. apply Hfresh. now right.
    + rewrite (Hfresh k1 (or_introl eq_refl)).
      rewrite IH; [now rewrite <- app_assoc | exact Hd |].
      intros k Hk. rewrite lookup_app, (Hfresh k (or_intror Hk)).
      cbn [ini.lookup]. destruct (String.eqb_spec k1 k) as [E|E]; [|reflexivity].
      subst k1. contradiction.
Qed.

(** X11. On an empty backing file, the section that a save hands to the
    writer for the profile holds exactly the keys of the record, in the
    order of the struct: the tag name of every field with the text of
    its value, without the [omitempty] fields that are empty. *)
Theorem SaveIDPAccount_fresh_section `{Externals} {T : IniText} (d : disk)
    (P : string) (account : IDPAccount) :
  Validate account = None ->
  LoadSources save_options d = Ok ini.Empty ->
  write_failure d = None ->
  P <> "" ->
  SaveIDPAccount d P account
    = (written (saved_sections ini.Empty P account), None) /\
  ini.find_section (saved_sections ini.Empty P account) P
    = Some (written_keys (struct_fields account)).
Proof.
  intros Hv Hload Hw HP.
  split; [now apply SaveIDPAccount_writes|].
  unfold saved_sections.
  destruct (NewSection_Empty P HP) as (cfg' & Hnew & HfP & Honly & _).
  rewrite Hnew.
  rewrite (ReflectFrom_local (struct_fields account) cfg' P [] Honly HP HfP).
  rewrite (fold_reflect_keys_fresh _ [] (distinct_struct_fields account))
    by reflexivity.
  cbn [app].
  rewrite find_section_update_same, HfP. reflexivity.
Qed.

Lemma SaveIDPAccount_fresh_section_witness :
  SaveIDPAccount (H := sample_externals) empty_disk "team" okta_account
    = (written (saved_sections ini.Empty "team" okta_account), None) /\
  ini.find_section (saved_sections ini.Empty "team" okta_account) "team"
    = Some (written_keys (struct_fields okta_account)).
Proof.
  apply (SaveIDPAccount_fresh_section (H := sample_externals) empty_disk "team"
           okta_account).
  - vm_compute. reflexivity.
  - reflexivity.
  - reflexivity.
  - discriminate.
Defined.

(** The keys of a record, written out. *)
Example written_keys_okta_account :
  written_keys (struct_fields okta_account) =
  [ ("name", "work"); ("app_id", ""); ("url", "https://idp.example.com");
    ("username", ""); ("provider", "Okta"); ("mfa", "push");
    ("mfa_ip_address", ""); ("skip_verify", "false"); ("timeout", "0");
    ("aws_urn", "urn:amazon:webservices"); ("aws_session_duration", "3600");
    ("aws_profile", "saml"); ("resource_id", ""); ("subdomain", "");
    ("role_arn", ""); ("policy_file", ""); ("policy_arn_list", "");
    ("region", ""); ("http_attempts_count", ""); ("http_retry_delay", "");
    ("credentials_file", ""); ("saml_cache", "false"); ("saml_cache_file", "");
    ("target_url", ""); ("disable_remember_device", "false");
    ("disable_sessions", "false"); ("download_browser_driver", "false");
    ("headless", "false"); ("prompter", ""); ("kc_broker", "") ].
Proof. vm_compute. reflexivity. Qed.

(** A key left by an earlier save is read back: the record saved with an
    empty browser type over a section that has the key "browser_type"
    loads with the old browser type. *)
Example stale_omitempty_key_is_loaded :
  BrowserType okta_account = "" /\
  exists loaded,
    LoadIDPAccount
      (fst (SaveIDPAccount (H := sample_externals) browser_disk "dev"
              okta_account)) "dev" = Ok loaded /\
    BrowserType loaded = "chrome".
Proof.
  split; [reflexivity|]. eexists. split; [vm_compute; reflexivity | reflexivity].
Qed.
